(** * sports_guesser.py: keyword classifier and upload validation

    A shallow embedding of [src/sports_guesser.py].

    Conventions of the model.
    - A Python [str] is a [string]; the characters are the 8-bit [ascii]
      ones and [str.lower] is the ASCII lower-casing (the letters A..Z).
    - A Python [dict] is an insertion-ordered association list with
      distinct keys ([dict_set] overwrites in place, or appends).
    - A Python exception is a value [Raise e] of the type [result]; the
      statements of a function body are sequenced with [x <- c ;; k].
    - The third-party readers (PyPDF2, python-docx) and werkzeug's
      [secure_filename] are not part of the program: the handler takes
      them as parameters, the two extractors take what the readers
      produce (pages, paragraphs).
    - The disk is a dictionary from paths to bytes; whether the file
      system takes a write is a parameter of the handler. *)

From Stdlib Require Import String Ascii List Arith Bool Lia.
Import ListNotations.
Local Open Scope list_scope.
Local Open Scope string_scope.

(** ** Exceptions *)

Inductive exn : Type :=
| KeyError
| ValueError
| TypeError
| IndexError
| OSError
| ReaderError
| NameError
| SystemError
| PackageNotFoundError.

Inductive result (A : Type) : Type :=
| Ok (a : A)
| Raise (e : exn).

Arguments Ok {A} a.
Arguments Raise {A} e.

Definition bind {A B : Type} (c : result A) (k : A -> result B) : result B :=
  match c with
  | Ok a => k a
  | Raise e => Raise e
  end.

Notation "x <- c ;; k" := (bind c (fun x => k))
  (at level 61, c at next level, right associativity).

(** ** Strings *)

Module Str.

(** [c.lower()] for one ASCII character. *)
Definition lower_ascii (c : ascii) : ascii :=
  let n := nat_of_ascii c in
  if ((65 <=? n) && (n <=? 90))%nat then ascii_of_nat (n + 32) else c.

(** [s.lower()] *)
Fixpoint lower (s : string) : string :=
  match s with
  | EmptyString => EmptyString
  | String c s' => String (lower_ascii c) (lower s')
  end.

(** The scan of [s.count(sub)]: [skip] characters of the last match are
    still to be passed over, so that matches never overlap.  At the end of
    the text the empty [sub] matches once more. *)
Fixpoint count_from (sub : string) (skip : nat) (s : string) : nat :=
  match s with
  | EmptyString =>
      match skip, sub with
      | O, EmptyString => 1
      | _, _ => 0
      end
  | String _ s' =>
      match skip with
      | S k => count_from sub k s'
      | O => if prefix sub s
             then S (count_from sub (pred (String.length sub)) s')
             else count_from sub 0 s'
      end
  end.

(** [s.count(sub)]: the number of non-overlapping occurrences of [sub] in
    [s], found from left to right. *)
Definition count (s sub : string) : nat := count_from sub 0 s.

(** [s[n:]] *)
Fixpoint drop (n : nat) (s : string) : string :=
  match n, s with
  | O, _ => s
  | S _, EmptyString => EmptyString
  | S n', String _ s' => drop n' s'
  end.

(** [s.find(sub)], with [None] for Python's [-1]. *)
Fixpoint find (s sub : string) : option nat :=
  match s with
  | EmptyString =>
      match sub with
      | EmptyString => Some 0
      | String _ _ => None
      end
  | String _ s' =>
      if prefix sub s then Some 0 else option_map S (find s' sub)
  end.

(** [c in s] for a one-character [c]. *)
Fixpoint contains_char (c : ascii) (s : string) : bool :=
  match s with
  | EmptyString => false
  | String d s' => Ascii.eqb d c || contains_char c s'
  end.

(** The split of [s.rsplit(sep, 1)] at the last [sep], when there is one. *)
Fixpoint rsplit_last (sep : ascii) (s : string) : option (string * string) :=
  match s with
  | EmptyString => None
  | String c s' =>
      match rsplit_last sep s' with
      | Some (a, b) => Some (String c a, b)
      | None => if Ascii.eqb c sep then Some (EmptyString, s') else None
      end
  end.

(** [s.rsplit(sep, 1)] for a one-character [sep]. *)
Definition rsplit1 (sep : ascii) (s : string) : list string :=
  match rsplit_last sep s with
  | Some (a, b) => [a; b]
  | None => [s]
  end.

(** [s.endswith(suffix)] *)
Definition endswith (s suffix : string) : bool :=
  let n := String.length s in
  let m := String.length suffix in
  (m <=? n)%nat && String.eqb (substring (n - m) m s) suffix.

(** [sep.join(parts)] *)
Fixpoint join (sep : string) (parts : list string) : string :=
  match parts with
  | [] => EmptyString
  | [p] => p
  | p :: rest => p ++ sep ++ join sep rest
  end.

End Str.

(** ** Dictionaries

    Keys are strings.  The order of the entries is the insertion order,
    which is the order in which Python iterates over a [dict]. *)

Module Dict.

Definition t (V : Type) : Type := list (string * V).

Section Operations.
Context {V : Type}.

(** [d.get(k)] *)
Fixpoint get (d : t V) (k : string) : option V :=
  match d with
  | [] => None
  | (k', v) :: d' => if String.eqb k' k then Some v else get d' k
  end.

(** [d[k]] *)
Definition getitem (d : t V) (k : string) : result V :=
  match get d k with
  | Some v => Ok v
  | None => Raise KeyError
  end.

(** [d[k] = v] *)
Fixpoint set (d : t V) (k : string) (v : V) : t V :=
  match d with
  | [] => [(k, v)]
  | (k', v') :: d' =>
      if String.eqb k' k then (k', v) :: d' else (k', v') :: set d' k v
  end.

(** [k in d] *)
Definition mem (d : t V) (k : string) : bool :=
  match get d k with
  | Some _ => true
  | None => false
  end.

(** Iteration over [d], and over [d.items()]. *)
Definition keys (d : t V) : list string := map fst d.
Definition items (d : t V) : list (string * V) := d.

End Operations.

End Dict.

(** ** Loops and builtins *)

(** [for x in xs: body], the loop variables threaded as [s]; an exception
    of the body leaves the loop. *)
Fixpoint for_each {A S : Type} (xs : list A) (body : A -> S -> result S)
    (s : S) : result S :=
  match xs with
  | [] => Ok s
  | x :: xs' => s' <- body x s ;; for_each xs' body s'
  end.

(** [a > b] on values that are a number or [None]. *)
Definition py_gt (a b : option nat) : result bool :=
  match a, b with
  | Some x, Some y => Ok (y <? x)%nat
  | _, _ => Raise TypeError
  end.

(** The scan of [max(it, key=key)]: the current best is replaced only by
    an item whose key is greater. *)
Fixpoint max_scan {K : Type} (key : K -> option nat) (maxitem : K)
    (maxval : option nat) (it : list K) : result K :=
  match it with
  | [] => Ok maxitem
  | item :: it' =>
      let val := key item in
      gt <- py_gt val maxval ;;
      if gt then max_scan key item val it' else max_scan key maxitem maxval it'
  end.

(** [max(it, key=key)] *)
Definition py_max {K : Type} (key : K -> option nat) (it : list K) : result K :=
  match it with
  | [] => Raise ValueError
  | item :: it' => max_scan key item (key item) it'
  end.

(** [xs[i]] *)
Definition py_index {A : Type} (xs : list A) (i : nat) : result A :=
  match nth_error xs i with
  | Some x => Ok x
  | None => Raise IndexError
  end.

(** [x in xs] for a set of strings. *)
Definition set_mem (x : string) (xs : list string) : bool :=
  existsb (String.eqb x) xs.

(** ** The module's constants *)

Definition ALLOWED_EXTENSIONS : list string := ["pdf"; "docx"].

Definition SPORT_CATEGORIES : Dict.t (list string) :=
  [ ("Football",
     ["football"; "fifa"; "goal"; "kick"; "soccer"; "messi"; "ronaldo"]);
    ("Cricket",
     ["cricket"; "bat"; "ball"; "wicket"; "bowler"; "batsman"; "dhoni"; "kohli"]);
    ("Basketball",
     ["basketball"; "nba"; "hoop"; "dribble"; "slam dunk"; "lebron"; "curry"]);
    ("Tennis",
     ["tennis"; "grand slam"; "wimbledon"; "federer"; "nadal"; "djokovic"; "serve"]);
    ("Hockey",
     ["hockey"; "stick"; "puck"; "ice"; "nhl"; "goalie"; "rink"]) ].

(** ** allowed_file *)

(** [allowed_file(filename)], the set of extensions made explicit. *)
Definition allowed_file_in (allowed : list string) (filename : string)
    : result bool :=
  if Str.contains_char "." filename then
    ext <- py_index (Str.rsplit1 "." filename) 1 ;;
    Ok (set_mem (Str.lower ext) allowed)
  else Ok false.

Definition allowed_file (filename : string) : result bool :=
  allowed_file_in ALLOWED_EXTENSIONS filename.

(** ** categorize_text *)

(** [{sport: 0 for sport in table}] *)
Definition zero_scores (table : Dict.t (list string)) : Dict.t nat :=
  fold_left (fun scores sport => Dict.set scores sport 0) (Dict.keys table) [].

(** [scores[sport] += text_lower.count(keyword)] *)
Definition add_count (text_lower sport keyword : string) (scores : Dict.t nat)
    : result (Dict.t nat) :=
  old <- Dict.getitem scores sport ;;
  Ok (Dict.set scores sport (old + Str.count text_lower keyword)).

(** The two nested loops over the table. *)
Definition count_keywords (table : Dict.t (list string)) (text_lower : string)
    (scores : Dict.t nat) : result (Dict.t nat) :=
  for_each (Dict.items table)
    (fun '(sport, keywords) scores =>
       for_each keywords (add_count text_lower sport) scores)
    scores.

(** The body of [categorize_text], the keyword table made explicit. *)
Definition categorize_text_in (table : Dict.t (list string)) (text : string)
    : result string :=
  let text_lower := Str.lower text in
  let scores := zero_scores table in
  scores <- count_keywords table text_lower scores ;;
  best_sport <- py_max (Dict.get scores) (Dict.keys scores) ;;
  best <- Dict.getitem scores best_sport ;;
  Ok (if (0 <? best)%nat then best_sport else "Unknown").

Definition categorize_text (text : string) : result string :=
  categorize_text_in SPORT_CATEGORIES text.

(** The score of one category: the occurrences of its keywords in the
    lower-cased text, added up. *)
Definition category_score (keywords : list string) (text : string) : nat :=
  list_sum (map (Str.count (Str.lower text)) keywords).

(** The scores of all categories, in table order. *)
Definition score_table (table : Dict.t (list string)) (text : string)
    : Dict.t nat :=
  map (fun '(sport, keywords) => (sport, category_score keywords text)) table.

(** ** Calls in the interpreter state

    The objects of the interpreter live in a store and are known by their
    address; a global name is bound to an address.  A call of
    [categorize_text] looks the global [SPORT_CATEGORIES] up, allocates the
    dictionary [scores] and updates that object in place. *)

Module Heap.

Inductive obj : Type :=
| SetOfStr (xs : list string)
| DictOfLists (d : Dict.t (list string))
| DictOfInts (d : Dict.t nat).

Record world : Type := {
  names : Dict.t nat;
  objects : list obj
}.

(** A computation on the interpreter state; an exception keeps the state
    reached when it is raised. *)
Definition St (A : Type) : Type := world -> result A * world.

Definition ret {A : Type} (a : A) : St A := fun w => (Ok a, w).

Definition lift {A : Type} (r : result A) : St A := fun w => (r, w).

Definition bind_st {A B : Type} (c : St A) (k : A -> St B) : St B :=
  fun w =>
    match c w with
    | (Ok a, w') => k a w'
    | (Raise e, w') => (Raise e, w')
    end.

Notation "x <~ c ;; k" := (bind_st c (fun x => k))
  (at level 61, c at next level, right associativity).

(** The address that the global [name] is bound to. *)
Definition global (name : string) : St nat :=
  fun w =>
    match Dict.get (names w) name with
    | Some a => (Ok a, w)
    | None => (Raise NameError, w)
    end.

Definition load (a : nat) : St obj :=
  fun w =>
    match nth_error (objects w) a with
    | Some o => (Ok o, w)
    | None => (Raise SystemError, w)
    end.

Fixpoint replace (a : nat) (o : obj) (os : list obj) : list obj :=
  match os, a with
  | [], _ => []
  | _ :: os', O => o :: os'
  | o' :: os', S a' => o' :: replace a' o os'
  end.

(** The object at [a] becomes [o]: a mutation in place. *)
Definition store (a : nat) (o : obj) : St unit :=
  fun w =>
    match nth_error (objects w) a with
    | Some _ =>
        (Ok tt, {| names := names w; objects := replace a o (objects w) |})
    | None => (Raise SystemError, w)
    end.

(** A new object, at a fresh address. *)
Definition alloc (o : obj) : St nat :=
  fun w =>
    (Ok (List.length (objects w)),
     {| names := names w; objects := (objects w ++ [o])%list |}).

(** The object is used as a table of keyword lists, or as a table of
    scores; an object of another kind does not support the use. *)
Definition as_lists (o : obj) : St (Dict.t (list string)) :=
  match o with
  | DictOfLists d => ret d
  | _ => lift (Raise TypeError)
  end.

Definition as_ints (o : obj) : St (Dict.t nat) :=
  match o with
  | DictOfInts d => ret d
  | _ => lift (Raise TypeError)
  end.

Fixpoint for_each_st {A : Type} (xs : list A) (body : A -> St unit)
    : St unit :=
  match xs with
  | [] => ret tt
  | x :: xs' => _ <~ body x ;; for_each_st xs' body
  end.

(** [scores[sport] += text_lower.count(keyword)] on the object [scores]. *)
Definition add_count_st (text_lower sport keyword : string) (scores : nat)
    : St unit :=
  o <~ load scores ;;
  d <~ as_ints o ;;
  old <~ lift (Dict.getitem d sport) ;;
  store scores (DictOfInts (Dict.set d sport (old + Str.count text_lower keyword))).

(** [categorize_text(text)] as a call: the label, and the state after. *)
Definition categorize_text_st (text : string) : St string :=
  let text_lower := Str.lower text in
  a <~ global "SPORT_CATEGORIES" ;;
  o <~ load a ;;
  table <~ as_lists o ;;
  scores <~ alloc (DictOfInts (zero_scores table)) ;;
  a <~ global "SPORT_CATEGORIES" ;;
  o <~ load a ;;
  table <~ as_lists o ;;
  _ <~ for_each_st (Dict.items table)
         (fun '(sport, keywords) =>
            for_each_st keywords
              (fun keyword => add_count_st text_lower sport keyword scores)) ;;
  o <~ load scores ;;
  d <~ as_ints o ;;
  best_sport <~ lift (py_max (Dict.get d) (Dict.keys d)) ;;
  o <~ load scores ;;
  d <~ as_ints o ;;
  best <~ lift (Dict.getitem d best_sport) ;;
  ret (if (0 <? best)%nat then best_sport else "Unknown").

(** The state after the module is loaded. *)
Definition module_world : world :=
  {| names := [("ALLOWED_EXTENSIONS", 0); ("SPORT_CATEGORIES", 1)];
     objects := [SetOfStr ALLOWED_EXTENSIONS; DictOfLists SPORT_CATEGORIES] |}.

(** The state with the names [g], the objects [h] and, behind them, a
    dictionary of scores [d]. *)
Definition with_scores (g : Dict.t nat) (h : list obj) (d : Dict.t nat)
    : world :=
  {| names := g; objects := (h ++ [DictOfInts d])%list |}.

(** What a loop over [scores] returns, given what the loop on the value of
    [scores] returns. *)
Definition done (r : result (Dict.t nat)) : result unit :=
  match r with
  | Ok _ => Ok tt
  | Raise e => Raise e
  end.

End Heap.

(** ** Text extraction and the request handler *)

Definition newline : string := String (ascii_of_nat 10) EmptyString.

(** [x or ""] for [x] a string or [None]. *)
Definition or_empty (x : option string) : string :=
  match x with
  | Some s => s
  | None => EmptyString
  end.

(** The loop of [extract_text_from_pdf] over [reader.pages]; a page is
    given by what its [extract_text()] returns. *)
Definition pdf_text (pages : list (option string)) : string :=
  fold_left (fun text page => text ++ or_empty page) pages EmptyString.

(** The expression of [extract_text_from_docx] over [doc.paragraphs]; a
    paragraph is given by its [text]. *)
Definition docx_text (paragraphs : list string) : string :=
  Str.join newline paragraphs.

(** [os.path.join(a, b)] (POSIX). *)
Definition os_path_join (a b : string) : string :=
  if prefix "/" b then b
  else if String.eqb a "" || Str.endswith a "/" then a ++ b
  else a ++ "/" ++ b.

(** An uploaded file: werkzeug's [FileStorage]. *)
Record FileStorage : Type := {
  filename : string;
  stream : string
}.

(** [bool(file)] *)
Definition file_truthy (file : FileStorage) : bool :=
  negb (String.eqb (filename file) "").

Inductive http_method : Type := GET | POST.

Record request : Type := {
  method : http_method;
  files : Dict.t FileStorage
}.

(** The disk: the bytes stored at each path. *)
Definition filesystem : Type := Dict.t string.

(** What the template shows of [category]:
    [{% if category %} Detected Category: {{ category }} {% endif %}]. *)
Definition rendered_category (category : option string) : option string :=
  match category with
  | Some c => if String.eqb c "" then None else Some c
  | None => None
  end.

Section Handler.

(** PyPDF2: the pages of the document with the given bytes, each page as
    what its [extract_text()] returns; python-docx: the texts of its
    paragraphs.  Both raise on bytes they cannot read. *)
Variable PdfReader_pages : string -> result (list (option string)).
Variable Document_paragraphs : string -> result (list string).

(** werkzeug's [secure_filename], and the configured upload folder. *)
Variable secure_filename : string -> string.
Variable UPLOAD_FOLDER : string.

(** The file system: whether it takes the given bytes at the given path on
    the given disk (it refuses a name that is too long, a missing
    directory, a full disk). *)
Variable can_write : filesystem -> string -> string -> bool.

(** [file.save(filepath)]: the bytes are stored, or [OSError] is raised
    and nothing is written. *)
Definition save (disk : filesystem) (filepath bytes : string)
    : result filesystem :=
  if can_write disk filepath bytes then Ok (Dict.set disk filepath bytes)
  else Raise OSError.

Definition read_file (disk : filesystem) (filepath : string) : result string :=
  match Dict.get disk filepath with
  | Some bytes => Ok bytes
  | None => Raise OSError
  end.

Definition extract_text_from_pdf (disk : filesystem) (filepath : string)
    : result string :=
  f <- read_file disk filepath ;;
  pages <- PdfReader_pages f ;;
  Ok (pdf_text pages).

(** [docx.Document(filepath)] opens the path itself: it raises
    [PackageNotFoundError] when there is no file. *)
Definition Document (disk : filesystem) (filepath : string)
    : result (list string) :=
  match Dict.get disk filepath with
  | Some bytes => Document_paragraphs bytes
  | None => Raise PackageNotFoundError
  end.

Definition extract_text_from_docx (disk : filesystem) (filepath : string)
    : result string :=
  paragraphs <- Document disk filepath ;;
  Ok (docx_text paragraphs).

(** The accepted branch of the handler, after [file.save(filepath)]:
    the value of [category] at the end. *)
Definition process_saved (disk : filesystem) (filename filepath : string)
    : result (option string) :=
  let category : option string := None in
  let file_text := EmptyString in
  vars <-
    (if Str.endswith (Str.lower filename) ".pdf" then
       file_text <- extract_text_from_pdf disk filepath ;;
       Ok (file_text, category)
     else if Str.endswith (Str.lower filename) ".docx" then
       file_text <- extract_text_from_docx disk filepath ;;
       Ok (file_text, category)
     else Ok (file_text, Some "Unsupported file type")) ;;
  let '(file_text, category) := vars in
  if negb (String.eqb file_text "") then
    category <- categorize_text file_text ;;
    Ok (Some category)
  else Ok category.

(** The body of [upload_file] up to the template: the value of
    [category], and the disk after the request. *)
Definition upload_category (req : request) (disk : filesystem)
    : result (option string) * filesystem :=
  match method req with
  | GET => (Ok None, disk)
  | POST =>
      if negb (Dict.mem (files req) "file") then (Ok (Some "No file part"), disk)
      else
        match Dict.getitem (files req) "file" with
        | Raise e => (Raise e, disk)
        | Ok file =>
            if String.eqb (filename file) "" then
              (Ok (Some "No selected file"), disk)
            else
              match (if file_truthy file then allowed_file (filename file)
                     else Ok false) with
              | Raise e => (Raise e, disk)
              | Ok false => (Ok None, disk)
              | Ok true =>
                  let filename := secure_filename (filename file) in
                  let filepath := os_path_join UPLOAD_FOLDER filename in
                  match save disk filepath (stream file) with
                  | Raise e => (Raise e, disk)
                  | Ok disk => (process_saved disk filename filepath, disk)
                  end
              end
        end
  end.

(** [upload_file()] for the request [req]: the category that the
    returned page shows, if any, and the disk after the request. *)
Definition upload_file (req : request) (disk : filesystem)
    : result (option string) * filesystem :=
  let '(category, disk) := upload_category req disk in
  (c <- category ;; Ok (rendered_category c), disk).

End Handler.

(** ** Notions used in the statements *)

(** The entry of a category in [scores] before and after the loops. *)
Definition zero_entry (e : string * list string) : string * nat := (fst e, 0).

Definition counted_entry (text_lower : string) (e : string * list string)
    : string * nat :=
  (fst e, list_sum (map (Str.count text_lower) (snd e))).

(** A keyword that is not empty and is its own lower-casing. *)
Definition keyword_ok (keyword : string) : bool :=
  negb (String.eqb keyword "") && String.eqb (Str.lower keyword) keyword.

(** [filename] is [stem.ext] where [ext], the part after the last dot,
    is "pdf" or "docx" in some letter case. *)
Definition has_allowed_extension (filename : string) : Prop :=
  exists stem ext,
    filename = (stem ++ "." ++ ext)%string /\
    Str.contains_char "." ext = false /\
    (Str.lower ext = "pdf" \/ Str.lower ext = "docx").

(** The last statement of the accepted branch, for the extracted text
    [file_text]: [if file_text: category = categorize_text(file_text)]. *)
Definition label_of_text (file_text : string) : result (option string) :=
  if negb (String.eqb file_text "") then
    category <- categorize_text file_text ;;
    Ok (Some category)
  else Ok None.

(** A POST request with the one file part [file]. *)
Definition post_file (file : FileStorage) : request :=
  {| method := POST; files := [("file", file)] |}.

(** * Properties *)

Example count_plain : Str.count "a goal, a goal" "goal" = 2.
Proof. reflexivity. Qed.

Example count_no_overlap : Str.count "aaaa" "aa" = 2 /\ Str.count "abababa" "aba" = 2.
Proof. split; reflexivity. Qed.

Example count_empty_sub : Str.count "abc" "" = 4 /\ Str.count "" "" = 1.
Proof. split; reflexivity. Qed.

Example lower_mixed : Str.lower "Messi @ FIFA [2022]" = "messi @ fifa [2022]".
Proof. reflexivity. Qed.

Example rsplit1_examples :
  Str.rsplit1 "." "a.b.c" = ["a.b"; "c"] /\
  Str.rsplit1 "." "abc" = ["abc"] /\
  Str.rsplit1 "." ".pdf" = [""; "pdf"] /\
  Str.rsplit1 "." "x." = ["x"; ""].
Proof. repeat split; reflexivity. Qed.

Example endswith_examples :
  Str.endswith "a.pdf" ".pdf" = true /\
  Str.endswith "pdf" ".pdf" = false /\
  Str.endswith "a.pdfx" ".pdf" = false.
Proof. repeat split; reflexivity. Qed.

Example find_examples :
  Str.find "a goalie" "goal" = Some 2 /\ Str.find "a goalie" "ball" = None.
Proof. split; reflexivity. Qed.

(** ** Facts about strings *)

Module StrFacts.
Import Str.

Lemma append_empty_r (s : string) : s ++ "" = s.
Proof. induction s as [|c s IH]; simpl; [reflexivity | now rewrite IH]. Qed.

Lemma append_assoc (a b c : string) : (a ++ b) ++ c = a ++ (b ++ c).
Proof. induction a as [|x a IH]; simpl; [reflexivity | now rewrite IH]. Qed.

Lemma length_append (a b : string) :
  String.length (a ++ b) = String.length a + String.length b.
Proof. induction a as [|x a IH]; simpl; [reflexivity | now rewrite IH]. Qed.

Lemma lower_append (a b : string) : lower (a ++ b) = lower a ++ lower b.
Proof. induction a as [|x a IH]; simpl; [reflexivity | now rewrite IH]. Qed.

Lemma length_lower (s : string) : String.length (lower s) = String.length s.
Proof. induction s as [|c s IH]; simpl; [reflexivity | now rewrite IH]. Qed.

Lemma lower_ascii_idem (c : ascii) : lower_ascii (lower_ascii c) = lower_ascii c.
Proof.
  destruct c as [[] [] [] [] [] [] [] []]; reflexivity.
Qed.

Lemma lower_idem (s : string) : lower (lower s) = lower s.
Proof.
  induction s as [|c s IH]; simpl; [reflexivity|].
  now rewrite lower_ascii_idem, IH.
Qed.





(** A text without an occurrence counts none. *)
Lemma count_find_none (s sub : string) : find s sub = None -> count s sub = 0.
Proof.
  unfold count. induction s as [|c s IH]; cbn [find count_from].
  - destruct sub; [discriminate | reflexivity].
  - destruct (prefix sub (String c s)); [discriminate|].
    destruct (find s sub); [discriminate|]. intros _. now apply IH.
Qed.




End StrFacts.

(** ** Facts about dictionaries *)

Module DictFacts.
Local Open Scope list_scope.

Section Facts.
Context {V : Type}.
Implicit Types (d pre post : Dict.t V) (k : string) (v : V).

Lemma get_app_notin pre d k :
  ~ In k (Dict.keys pre) -> Dict.get (pre ++ d) k = Dict.get d k.
Proof.
  induction pre as [|[k' v'] pre IH]; simpl; intro Hn; [reflexivity|].
  destruct (String.eqb_spec k' k) as [->|_]; [now elim Hn; left|].
  apply IH. intro; apply Hn; now right.
Qed.

Lemma set_app_notin pre d k v :
  ~ In k (Dict.keys pre) -> Dict.set (pre ++ d) k v = pre ++ Dict.set d k v.
Proof.
  induction pre as [|[k' v'] pre IH]; simpl; intro Hn; [reflexivity|].
  destruct (String.eqb_spec k' k) as [->|_]; [now elim Hn; left|].
  f_equal. apply IH. intro; apply Hn; now right.
Qed.

Lemma get_here pre k v post :
  ~ In k (Dict.keys pre) -> Dict.get (pre ++ (k, v) :: post) k = Some v.
Proof.
  intro Hn. rewrite get_app_notin by assumption.
  simpl. now rewrite String.eqb_refl.
Qed.

Lemma set_here pre k v v' post :
  ~ In k (Dict.keys pre) ->
  Dict.set (pre ++ (k, v) :: post) k v' = pre ++ (k, v') :: post.
Proof.
  intro Hn. rewrite set_app_notin by assumption.
  simpl. now rewrite String.eqb_refl.
Qed.

Lemma set_fresh d k v :
  ~ In k (Dict.keys d) -> Dict.set d k v = d ++ [(k, v)].
Proof.
  intro Hn. rewrite <- (app_nil_r d) at 1. now rewrite set_app_notin.
Qed.

Lemma keys_app pre post :
  Dict.keys (pre ++ post) = Dict.keys pre ++ Dict.keys post.
Proof. apply map_app. Qed.

(** With distinct keys, the entries are what [get] finds. *)
Lemma get_In d k v :
  NoDup (Dict.keys d) -> In (k, v) d -> Dict.get d k = Some v.
Proof.
  intros Hnd Hin. apply in_split in Hin as [pre [post ->]].
  apply get_here. rewrite keys_app in Hnd. simpl in Hnd.
  apply NoDup_remove_2 in Hnd. intro; apply Hnd, in_or_app; now left.
Qed.

End Facts.

End DictFacts.

(** ** The scoring loops *)

Module Scoring.
Import DictFacts.
Local Open Scope list_scope.

Lemma keys_map_zero (table : Dict.t (list string)) :
  Dict.keys (map zero_entry table) = Dict.keys table.
Proof. unfold Dict.keys. rewrite map_map. reflexivity. Qed.

Lemma keys_map_counted (text_lower : string) (table : Dict.t (list string)) :
  Dict.keys (map (counted_entry text_lower) table) = Dict.keys table.
Proof. unfold Dict.keys. rewrite map_map. reflexivity. Qed.

Lemma zero_fold (ks : list string) (acc : Dict.t nat) :
  NoDup (Dict.keys acc ++ ks) ->
  fold_left (fun scores sport => Dict.set scores sport 0) ks acc =
  acc ++ map (fun k => (k, 0)) ks.
Proof.
  revert acc; induction ks as [|k ks IH]; intros acc Hnd; simpl.
  - now rewrite app_nil_r.
  - assert (Hk : ~ In k (Dict.keys acc)).
    { apply NoDup_remove_2 in Hnd. intro; apply Hnd, in_or_app; now left. }
    rewrite set_fresh by assumption.
    rewrite IH.
    + now rewrite <- app_assoc.
    + rewrite keys_app, <- app_assoc. exact Hnd.
Qed.

(** The comprehension gives every category of the table the score 0, in
    table order. *)
Lemma zero_scores_eq (table : Dict.t (list string)) :
  NoDup (Dict.keys table) -> zero_scores table = map zero_entry table.
Proof.
  intro Hnd. unfold zero_scores. rewrite zero_fold by exact Hnd.
  unfold Dict.keys. now rewrite map_map.
Qed.

(** The inner loop adds the counts of the keywords to one entry. *)
Lemma inner_loop (text_lower sport : string) (keywords : list string) :
  forall (pre post : Dict.t nat) (v : nat),
    ~ In sport (Dict.keys pre) ->
    for_each keywords (add_count text_lower sport) (pre ++ (sport, v) :: post) =
    Ok (pre ++ (sport, v + list_sum (map (Str.count text_lower) keywords)) :: post).
Proof.
  induction keywords as [|kw kws IH]; intros pre post v Hn; simpl.
  - now rewrite Nat.add_0_r.
  - unfold add_count at 1, Dict.getitem.
    rewrite get_here by assumption. simpl bind.
    rewrite set_here by assumption.
    rewrite IH by assumption. now rewrite Nat.add_assoc.
Qed.

(** The outer loop turns the zero entries into the counted ones. *)
Lemma outer_loop (text_lower : string) (rest : Dict.t (list string)) :
  forall pre : Dict.t nat,
    NoDup (Dict.keys pre ++ Dict.keys rest) ->
    count_keywords rest text_lower (pre ++ map zero_entry rest) =
    Ok (pre ++ map (counted_entry text_lower) rest).
Proof.
  unfold count_keywords, Dict.items.
  induction rest as [|[sport keywords] rest IH]; intros pre Hnd; [reflexivity|].
  cbn [for_each map].
  change (zero_entry (sport, keywords)) with (sport, 0).
  change (counted_entry text_lower (sport, keywords))
    with (sport, list_sum (map (Str.count text_lower) keywords)).
  assert (Hs : ~ In sport (Dict.keys pre)).
  { simpl in Hnd. apply NoDup_remove_2 in Hnd.
    intro; apply Hnd, in_or_app; now left. }
  rewrite inner_loop by assumption. cbn [bind Nat.add].
  specialize (IH (pre ++ [(sport, list_sum (map (Str.count text_lower) keywords))])).
  rewrite <- !app_assoc in IH. cbn [app] in IH. rewrite IH.
  - reflexivity.
  - rewrite keys_app, <- app_assoc. exact Hnd.
Qed.

Lemma score_table_counted (table : Dict.t (list string)) (text : string) :
  map (counted_entry (Str.lower text)) table = score_table table text.
Proof.
  unfold score_table. apply map_ext. now intros [sport keywords].
Qed.

(** After the loops [scores] holds the score of every category, in table
    order. *)
Lemma count_keywords_scores (table : Dict.t (list string)) (text : string) :
  NoDup (Dict.keys table) ->
  count_keywords table (Str.lower text) (zero_scores table) =
  Ok (score_table table text).
Proof.
  intro Hnd. rewrite zero_scores_eq by assumption.
  rewrite <- score_table_counted. apply (outer_loop _ table []). exact Hnd.
Qed.

Lemma keys_score_table (table : Dict.t (list string)) (text : string) :
  Dict.keys (score_table table text) = Dict.keys table.
Proof. rewrite <- score_table_counted. apply keys_map_counted. Qed.

Lemma get_score_table (table : Dict.t (list string)) (text sport : string)
    (keywords : list string) :
  NoDup (Dict.keys table) ->
  In (sport, keywords) table ->
  Dict.get (score_table table text) sport = Some (category_score keywords text).
Proof.
  intros Hnd Hin. apply get_In.
  - now rewrite keys_score_table.
  - unfold score_table.
    apply (in_map (fun '(s, k) => (s, category_score k text))) in Hin. exact Hin.
Qed.

End Scoring.

(** ** The scan of max *)

Module MaxFacts.
Local Open Scope list_scope.
Local Open Scope nat_scope.

Section Scan.
Context {K : Type} (key : K -> option nat).

(** Items whose key is not greater leave the current best in place. *)
Lemma max_scan_keep (it : list K) (best : K) (bv : nat) :
  (forall y, In y it -> exists w, key y = Some w /\ w <= bv) ->
  max_scan key best (Some bv) it = Ok best.
Proof.
  induction it as [|y it IH]; intro H; [reflexivity|].
  destruct (H y (or_introl eq_refl)) as [w [Hw Hle]].
  cbn [max_scan]. rewrite Hw. cbn [py_gt bind].
  replace (bv <? w) with false by (symmetry; apply Nat.ltb_ge; exact Hle).
  apply IH. intros z Hz. apply H. now right.
Qed.

(** The first item whose key is above everything before it and not
    below anything after it ends as the best. *)
Lemma max_scan_pick (l1 l2 : list K) (x : K) (v : nat) :
  key x = Some v ->
  (forall y, In y l1 -> exists w, key y = Some w /\ w < v) ->
  (forall y, In y l2 -> exists w, key y = Some w /\ w <= v) ->
  forall (best : K) (bv : nat),
    bv < v -> max_scan key best (Some bv) (l1 ++ x :: l2) = Ok x.
Proof.
  intros Hx H1 H2. induction l1 as [|y l1 IH]; intros best bv Hlt.
  - cbn [app max_scan]. rewrite Hx. cbn [py_gt bind].
    replace (bv <? v) with true by (symmetry; apply Nat.ltb_lt; exact Hlt).
    now apply max_scan_keep.
  - destruct (H1 y (or_introl eq_refl)) as [w [Hw Hwv]].
    assert (H1' : forall z, In z l1 -> exists w, key z = Some w /\ w < v).
    { intros z Hz. apply H1. now right. }
    cbn [app max_scan]. rewrite Hw. cbn [py_gt bind].
    destruct (bv <? w); now apply IH.
Qed.

Lemma py_max_first_max (l1 l2 : list K) (x : K) (v : nat) :
  key x = Some v ->
  (forall y, In y l1 -> exists w, key y = Some w /\ w < v) ->
  (forall y, In y l2 -> exists w, key y = Some w /\ w <= v) ->
  py_max key (l1 ++ x :: l2) = Ok x.
Proof.
  intros Hx H1 H2. destruct l1 as [|y l1]; cbn [app py_max].
  - rewrite Hx. now apply max_scan_keep.
  - destruct (H1 y (or_introl eq_refl)) as [w [Hw Hwv]]. rewrite Hw.
    apply max_scan_pick with (v := v); try assumption.
    intros z Hz. apply H1. now right.
Qed.

End Scan.

End MaxFacts.

(** ** The classifier over any table with distinct labels *)

Module Classifier.
Import DictFacts Scoring MaxFacts.
Local Open Scope list_scope.
Local Open Scope nat_scope.

Section Table.
Variable table : Dict.t (list string).
Hypothesis table_keys : NoDup (Dict.keys table).

(** The first category, in table order, whose score no category
    exceeds is the selected one; its label is returned when the score
    is positive. *)
Lemma first_max (text sport : string) (keywords : list string)
    (pre post : Dict.t (list string)) :
  table = pre ++ (sport, keywords) :: post ->
  (forall s k, In (s, k) pre ->
     category_score k text < category_score keywords text) ->
  (forall s k, In (s, k) post ->
     category_score k text <= category_score keywords text) ->
  categorize_text_in table text =
  Ok (if 0 <? category_score keywords text then sport else "Unknown").
Proof.
  intros Ht Hpre Hpost. unfold categorize_text_in.
  rewrite count_keywords_scores by exact table_keys. cbn [bind].
  rewrite keys_score_table.
  assert (Hget : forall s k, In (s, k) table ->
            Dict.get (score_table table text) s = Some (category_score k text)).
  { intros s k Hin. now apply get_score_table. }
  assert (Hmax : py_max (Dict.get (score_table table text)) (Dict.keys table)
                 = Ok sport).
  { rewrite Ht at 2. rewrite keys_app. cbn [Dict.keys map fst].
    apply py_max_first_max with (v := category_score keywords text).
    - apply Hget. rewrite Ht. apply in_or_app. right. now left.
    - intros y Hy. apply in_map_iff in Hy as [[s k] [<- Hin]].
      exists (category_score k text). split.
      + apply Hget. rewrite Ht. apply in_or_app. now left.
      + now apply (Hpre s k).
    - intros y Hy. apply in_map_iff in Hy as [[s k] [<- Hin]].
      exists (category_score k text). split.
      + apply Hget. rewrite Ht. apply in_or_app. right. now right.
      + now apply (Hpost s k). }
  rewrite Hmax. cbn [bind]. unfold Dict.getitem.
  rewrite (Hget sport keywords).
  - reflexivity.
  - rewrite Ht. apply in_or_app. right. now left.
Qed.

(** A category with a positive score that strictly exceeds every other
    one is returned. *)
Lemma strict_max (text sport : string) (keywords : list string) :
  In (sport, keywords) table ->
  0 < category_score keywords text ->
  (forall s k, In (s, k) table -> s <> sport ->
     category_score k text < category_score keywords text) ->
  categorize_text_in table text = Ok sport.
Proof.
  intros Hin Hpos Hothers.
  destruct (in_split _ _ Hin) as [pre [post Ht]].
  assert (Hnd := table_keys). rewrite Ht, keys_app in Hnd.
  cbn [Dict.keys map fst] in Hnd.
  assert (Hnot := NoDup_remove_2 _ _ _ Hnd).
  rewrite (first_max text sport keywords pre post Ht).
  - now replace (0 <? category_score keywords text) with true
      by (symmetry; apply Nat.ltb_lt; exact Hpos).
  - intros s k Hk. apply (Hothers s k).
    + rewrite Ht. apply in_or_app. now left.
    + intros ->. apply Hnot, in_or_app. left.
      apply (in_map fst) in Hk. exact Hk.
  - intros s k Hk. apply Nat.lt_le_incl, (Hothers s k).
    + rewrite Ht. apply in_or_app. right. now right.
    + intros ->. apply Hnot, in_or_app. right.
      apply (in_map fst) in Hk. exact Hk.
Qed.

(** Without any positive score the answer is "Unknown". *)
Lemma all_zero (text : string) :
  table <> [] ->
  (forall s k, In (s, k) table -> category_score k text = 0) ->
  categorize_text_in table text = Ok "Unknown".
Proof.
  intros Hne Hzero.
  assert (Hhead : forall l : Dict.t (list string), l <> [] ->
            exists sport keywords post, l = (sport, keywords) :: post).
  { intros [|[s k] l] H; [now elim H | now exists s, k, l]. }
  destruct (Hhead table Hne) as [sport [keywords [post Ht]]].
  rewrite (first_max text sport keywords [] post).
  - rewrite (Hzero sport keywords) by (rewrite Ht; now left). reflexivity.
  - exact Ht.
  - intros s k [].
  - intros s k Hk. rewrite (Hzero s k) by (rewrite Ht; now right).
    apply Nat.le_0_l.
Qed.

End Table.

(** The function depends on the text through its lower-casing only. *)
Lemma lower_only (table : Dict.t (list string)) (text text' : string) :
  Str.lower text' = Str.lower text ->
  categorize_text_in table text' = categorize_text_in table text.
Proof. intro H. unfold categorize_text_in. now rewrite H. Qed.

Lemma score_lower_only (keywords : list string) (text text' : string) :
  Str.lower text' = Str.lower text ->
  category_score keywords text' = category_score keywords text.
Proof. intro H. unfold category_score. now rewrite H. Qed.

End Classifier.

(** ** The reference table *)

Module Reference.
Local Open Scope list_scope.
Local Open Scope nat_scope.

Lemma labels_distinct : NoDup (Dict.keys SPORT_CATEGORIES).
Proof.
  repeat (apply NoDup_cons; [simpl; intuition discriminate|]).
  apply NoDup_nil.
Qed.

Lemma keywords_ok (sport : string) (keywords : list string) (keyword : string) :
  In (sport, keywords) SPORT_CATEGORIES ->
  In keyword keywords ->
  keyword <> EmptyString /\ Str.lower keyword = keyword.
Proof.
  intros Hs Hk.
  assert (Hall : forallb (fun e => forallb keyword_ok (snd e)) SPORT_CATEGORIES
                 = true) by (vm_compute; reflexivity).
  rewrite forallb_forall in Hall. specialize (Hall _ Hs). cbn [snd] in Hall.
  rewrite forallb_forall in Hall. specialize (Hall _ Hk).
  unfold keyword_ok in Hall. apply andb_true_iff in Hall as [Hne Hlow].
  split.
  - intros ->. discriminate.
  - now apply String.eqb_eq.
Qed.


Lemma score_zero (keywords : list string) (text : string) :
  (forall keyword, In keyword keywords ->
     Str.count (Str.lower text) keyword = 0) ->
  category_score keywords text = 0.
Proof.
  unfold category_score. induction keywords as [|kw kws IH]; intro H.
  - reflexivity.
  - simpl. rewrite (H kw) by now left. apply IH. intros k Hk. apply H. now right.
Qed.

End Reference.

(** ** The classifier on the reference table *)

Local Open Scope nat_scope.

(** C1: when the score of one category of the table strictly exceeds the
    score of every other category, [categorize_text] returns the label of
    that category; and every text with the same lower-casing (the same
    text in another letter case) has the same scores and the same answer. *)
Theorem categorize_text_strict_winner (text sport : string)
    (keywords : list string) :
  In (sport, keywords) SPORT_CATEGORIES ->
  (forall s k, In (s, k) SPORT_CATEGORIES -> s <> sport ->
     category_score k text < category_score keywords text) ->
  categorize_text text = Ok sport /\
  (forall text', Str.lower text' = Str.lower text ->
     (forall k, category_score k text' = category_score k text) /\
     categorize_text text' = Ok sport).
Proof.
  intros Hin Hothers.
  assert (Hpos : 0 < category_score keywords text).
  { destruct (string_dec sport "Football") as [->|Hne].
    - apply Nat.le_lt_trans
        with (m := category_score
               ["cricket"; "bat"; "ball"; "wicket"; "bowler"; "batsman";
                "dhoni"; "kohli"] text); [apply Nat.le_0_l|].
      apply (Hothers "Cricket"); [simpl; tauto | discriminate].
    - apply Nat.le_lt_trans
        with (m := category_score
               ["football"; "fifa"; "goal"; "kick"; "soccer"; "messi";
                "ronaldo"] text); [apply Nat.le_0_l|].
      apply (Hothers "Football"); [simpl; tauto | congruence]. }
  assert (Hres : categorize_text text = Ok sport).
  { apply (Classifier.strict_max _ Reference.labels_distinct _ _ keywords);
      assumption. }
  split; [exact Hres|]. intros text' Hlow. split.
  - intro k. now apply Classifier.score_lower_only.
  - unfold categorize_text. rewrite (Classifier.lower_only _ _ _ Hlow).
    exact Hres.
Qed.

Lemma categorize_text_strict_winner_witness :
  categorize_text "Kohli took the BALL; a goal." = Ok "Cricket" /\
  categorize_text "KOHLI TOOK THE ball; A GOAL." = Ok "Cricket".
Proof.
  destruct (categorize_text_strict_winner "Kohli took the BALL; a goal."
              "Cricket"
              ["cricket"; "bat"; "ball"; "wicket"; "bowler"; "batsman";
               "dhoni"; "kohli"]) as [H1 H2].
  - simpl; tauto.
  - intros s k Hin Hne. simpl in Hin.
    repeat (destruct Hin as [Hin|Hin];
            [injection Hin as <- <-; try (now elim Hne); vm_compute; lia|]).
    contradiction.
  - split; [exact H1|].
    exact (proj2 (H2 "KOHLI TOOK THE ball; A GOAL." eq_refl)).
Defined.

(** C2: the category returned is the first one, in the order in which the
    table is written, whose score is the maximum, when that score is not
    zero: categories before it score strictly less, categories after it
    may score as much.  It is the item that the scan of [max] ends with,
    which moves to a new item only on a strictly greater score. *)
Theorem categorize_text_tie_first (text sport : string)
    (keywords : list string) (pre post : Dict.t (list string)) :
  SPORT_CATEGORIES = (pre ++ (sport, keywords) :: post)%list ->
  0 < category_score keywords text ->
  (forall s k, In (s, k) pre ->
     category_score k text < category_score keywords text) ->
  (forall s k, In (s, k) post ->
     category_score k text <= category_score keywords text) ->
  categorize_text text = Ok sport /\
  py_max (Dict.get (score_table SPORT_CATEGORIES text))
         (Dict.keys (score_table SPORT_CATEGORIES text)) = Ok sport.
Proof.
  intros Ht Hpos Hpre Hpost.
  pose proof (Classifier.first_max _ Reference.labels_distinct
                text sport keywords pre post Ht Hpre Hpost) as Hres.
  replace (0 <? category_score keywords text) with true in Hres
    by (symmetry; apply Nat.ltb_lt; exact Hpos).
  split; [exact Hres|].
  unfold categorize_text, categorize_text_in in Hres.
  rewrite Scoring.count_keywords_scores in Hres by exact Reference.labels_distinct.
  cbn [bind] in Hres.
  destruct (py_max _ _) as [best|e]; [|discriminate Hres].
  cbn [bind] in Hres. destruct (Dict.getitem _ best) as [v|e]; [|discriminate Hres].
  cbn [bind] in Hres. destruct (0 <? v) eqn:Hv.
  - exact Hres.
  - exfalso. injection Hres as Hu.
    assert (Hin : In sport (Dict.keys SPORT_CATEGORIES)).
    { rewrite Ht, DictFacts.keys_app. apply in_or_app. right. now left. }
    rewrite <- Hu in Hin. simpl in Hin. intuition discriminate.
Qed.

Lemma categorize_text_tie_first_witness :
  categorize_text "The NBA ball" = Ok "Cricket".
Proof.
  refine (proj1 (categorize_text_tie_first "The NBA ball" "Cricket"
            ["cricket"; "bat"; "ball"; "wicket"; "bowler"; "batsman";
             "dhoni"; "kohli"]
            (firstn 1 SPORT_CATEGORIES) (skipn 2 SPORT_CATEGORIES) eq_refl _ _ _)).
  - vm_compute; lia.
  - intros s k Hin. simpl in Hin.
    destruct Hin as [Hin|[]]. injection Hin as <- <-. vm_compute; lia.
  - intros s k Hin. simpl in Hin.
    repeat (destruct Hin as [Hin|Hin];
            [injection Hin as <- <-; vm_compute; lia|]).
    contradiction.
Defined.

(** C3: a text whose lower-casing contains no occurrence of any keyword of
    any category gets the answer "Unknown", which is no label of the
    table. *)
Theorem categorize_text_no_keyword (text : string) :
  (forall sport keywords keyword,
     In (sport, keywords) SPORT_CATEGORIES -> In keyword keywords ->
     Str.count (Str.lower text) keyword = 0) ->
  categorize_text text = Ok "Unknown" /\
  ~ In "Unknown" (Dict.keys SPORT_CATEGORIES).
Proof.
  intro Hnone. split.
  - apply (Classifier.all_zero _ Reference.labels_distinct).
    + discriminate.
    + intros s k Hin. apply Reference.score_zero.
      intros keyword Hk. now apply (Hnone s k).
  - simpl. intuition discriminate.
Qed.

Lemma categorize_text_no_keyword_witness :
  categorize_text "" = Ok "Unknown".
Proof.
  refine (proj1 (categorize_text_no_keyword "" _)).
  intros sport keywords keyword Hs Hk.
  destruct (Reference.keywords_ok _ _ _ Hs Hk) as [Hne _].
  destruct keyword; [now elim Hne | reflexivity].
Defined.

(** C8: for the text "Messi scored a great goal in the FIFA match" the
    answer is "Football": the keywords messi, goal and fifa occur once
    each, Football scores 3 and every other category scores 0. *)
Theorem categorize_text_messi :
  let text := "Messi scored a great goal in the FIFA match" in
  categorize_text text = Ok "Football" /\
  Str.count (Str.lower text) "messi" = 1 /\
  Str.count (Str.lower text) "goal" = 1 /\
  Str.count (Str.lower text) "fifa" = 1 /\
  score_table SPORT_CATEGORIES text =
  [("Football", 3); ("Cricket", 0); ("Basketball", 0); ("Tennis", 0);
   ("Hockey", 0)].
Proof. vm_compute. repeat split. Qed.

(** C10: for the text "basketball" the answer is "Cricket": the Cricket
    keyword "ball" occurs in "basketball", Cricket and Basketball both
    score 1, and Cricket stands before Basketball in the table. *)
Theorem categorize_text_basketball :
  categorize_text "basketball" = Ok "Cricket" /\
  Str.count (Str.lower "basketball") "ball" = 1 /\
  score_table SPORT_CATEGORIES "basketball" =
  [("Football", 0); ("Cricket", 1); ("Basketball", 1); ("Tennis", 0);
   ("Hockey", 0)] /\
  Dict.keys SPORT_CATEGORIES =
  ["Football"; "Cricket"; "Basketball"; "Tennis"; "Hockey"].
Proof. vm_compute. repeat split. Qed.

(** ** A call in the interpreter state *)

Module HeapFacts.
Import Heap.
Local Open Scope list_scope.

Lemma nth_error_last (h : list obj) (o : obj) :
  nth_error (h ++ [o]) (List.length h) = Some o.
Proof. induction h as [|x h IH]; [reflexivity | exact IH]. Qed.

Lemma nth_error_before (h : list obj) (o x : obj) (a : nat) :
  nth_error h a = Some x -> nth_error (h ++ [o]) a = Some x.
Proof.
  revert a; induction h as [|y h IH]; intros [|a]; simpl; try discriminate.
  - trivial.
  - apply IH.
Qed.

Lemma replace_last (h : list obj) (o o' : obj) :
  replace (List.length h) o' (h ++ [o]) = h ++ [o'].
Proof. induction h as [|x h IH]; simpl; [reflexivity | now rewrite IH]. Qed.

(** One update of [scores]: the object at the address of [scores] is
    replaced, no other. *)
Lemma add_count_st_run (text_lower sport keyword : string)
    (g : Dict.t nat) (h : list obj) (d : Dict.t nat) :
  add_count_st text_lower sport keyword (List.length h) (with_scores g h d) =
  match add_count text_lower sport keyword d with
  | Ok d' => (Ok tt, with_scores g h d')
  | Raise e => (Raise e, with_scores g h d)
  end.
Proof.
  unfold add_count_st, add_count, bind_st, load, store, lift, with_scores.
  cbn [objects names]. rewrite nth_error_last. cbn [as_ints ret].
  destruct (Dict.getitem d sport) as [old|e]; cbn [bind]; [|reflexivity].
  cbn [objects names]. rewrite nth_error_last, replace_last. reflexivity.
Qed.

Lemma inner_run (text_lower sport : string) (keywords : list string)
    (g : Dict.t nat) (h : list obj) :
  forall d,
  exists d'',
    for_each_st keywords
      (fun keyword => add_count_st text_lower sport keyword (List.length h))
      (with_scores g h d)
    = (done (for_each keywords (add_count text_lower sport) d),
       with_scores g h d'') /\
    (forall d', for_each keywords (add_count text_lower sport) d = Ok d' ->
       d'' = d').
Proof.
  induction keywords as [|kw kws IH]; intro d.
  - exists d. split; [reflexivity|]. intros d' H. now injection H.
  - cbn [for_each_st for_each]. unfold bind_st at 1.
    rewrite add_count_st_run.
    destruct (add_count text_lower sport kw d) as [d1|e]; cbn [bind].
    + destruct (IH d1) as [d'' [Hrun Hd]]. exists d''. now split.
    + exists d. split; [reflexivity | discriminate].
Qed.

Lemma outer_run (text_lower : string) (table : Dict.t (list string))
    (g : Dict.t nat) (h : list obj) :
  forall d,
  exists d'',
    for_each_st (Dict.items table)
      (fun '(sport, keywords) =>
         for_each_st keywords
           (fun keyword =>
              add_count_st text_lower sport keyword (List.length h)))
      (with_scores g h d)
    = (done (count_keywords table text_lower d), with_scores g h d'') /\
    (forall d', count_keywords table text_lower d = Ok d' -> d'' = d').
Proof.
  unfold count_keywords, Dict.items.
  induction table as [|[sport keywords] table IH]; intro d.
  - exists d. split; [reflexivity|]. intros d' H. now injection H.
  - cbn [for_each_st for_each]. unfold bind_st at 1.
    destruct (inner_run text_lower sport keywords g h d) as [d1 [Hrun Hd1]].
    rewrite Hrun.
    destruct (for_each keywords (add_count text_lower sport) d) as [d1'|e];
      cbn [done bind].
    + rewrite (Hd1 d1' eq_refl). destruct (IH d1') as [d'' [Hrun' Hd]].
      exists d''. now split.
    + exists d1. split; [reflexivity | discriminate].
Qed.

Section Steps.
Context {A B : Type}.

Lemma step_global (name : string) (k : nat -> St B) (w : world) (a : nat) :
  Dict.get (names w) name = Some a ->
  (x <~ global name ;; k x) w = k a w.
Proof. intro H. unfold bind_st, global. now rewrite H. Qed.

Lemma step_load (a : nat) (k : obj -> St B) (w : world) (o : obj) :
  nth_error (objects w) a = Some o ->
  (x <~ load a ;; k x) w = k o w.
Proof. intro H. unfold bind_st, load. now rewrite H. Qed.

Lemma step_alloc (o : obj) (k : nat -> St B) (w : world) :
  (x <~ alloc o ;; k x) w
  = k (List.length (objects w))
      {| names := names w; objects := objects w ++ [o] |}.
Proof. reflexivity. Qed.

Lemma step_ret (a : A) (k : A -> St B) (w : world) :
  (x <~ ret a ;; k x) w = k a w.
Proof. reflexivity. Qed.

Lemma step_lift (r : result A) (k : A -> St B) (w : world) :
  (x <~ lift r ;; k x) w
  = match r with
    | Ok a => k a w
    | Raise e => (Raise e, w)
    end.
Proof. unfold bind_st, lift. now destruct r. Qed.

End Steps.

(** A call of [categorize_text] in a state where the global
    [SPORT_CATEGORIES] is bound to the dictionary [table]: the call
    returns what the body returns on [table], binds no name, and leaves
    one new object, the [scores] of the call, behind the old ones. *)
Lemma call_run (text : string) (w : world) (a : nat)
    (table : Dict.t (list string)) :
  Dict.get (names w) "SPORT_CATEGORIES" = Some a ->
  nth_error (objects w) a = Some (DictOfLists table) ->
  exists d,
    categorize_text_st text w
    = (categorize_text_in table text, with_scores (names w) (objects w) d).
Proof.
  intros Hname Hobj. destruct w as [g h]. cbn [names objects] in *.
  assert (Hobj' : forall d, nth_error (objects (with_scores g h d)) a
                            = Some (DictOfLists table)).
  { intro d. now apply nth_error_before. }
  assert (Hlast : forall d, nth_error (objects (with_scores g h d))
                              (List.length h) = Some (DictOfInts d)).
  { intro d. apply nth_error_last. }
  unfold categorize_text_st, categorize_text_in.
  rewrite (step_global _ _ _ a) by exact Hname.
  rewrite (step_load _ _ _ (DictOfLists table)) by exact Hobj.
  cbn [as_lists]. rewrite step_ret, step_alloc. cbn [names objects].
  change {| names := g; objects := h ++ [DictOfInts (zero_scores table)] |}
    with (with_scores g h (zero_scores table)).
  rewrite (step_global _ _ _ a) by exact Hname.
  rewrite (step_load _ _ _ (DictOfLists table)) by apply Hobj'.
  cbn [as_lists]. rewrite step_ret.
  destruct (outer_run (Str.lower text) table g h (zero_scores table))
    as [d1 [Hrun Hd1]].
  unfold bind_st at 1. rewrite Hrun.
  destruct (count_keywords table (Str.lower text) (zero_scores table))
    as [scores|e]; cbn [done bind]; [|now exists d1].
  rewrite (Hd1 scores eq_refl).
  rewrite (step_load _ _ _ (DictOfInts scores)) by apply Hlast.
  cbn [as_ints]. rewrite step_ret, step_lift.
  destruct (py_max (Dict.get scores) (Dict.keys scores)) as [best|e];
    cbn [bind]; [|now exists scores].
  rewrite (step_load _ _ _ (DictOfInts scores)) by apply Hlast.
  cbn [as_ints]. rewrite step_ret, step_lift.
  destruct (Dict.getitem scores best) as [v|e]; cbn [bind];
    now exists scores.
Qed.

End HeapFacts.

(** C9: two calls of [categorize_text] on the same text, one after the
    other, return the same label (or raise the same exception), which is
    the result of the body on the table that the global
    [SPORT_CATEGORIES] holds: a call binds no global name and changes no
    object that existed before it; the dictionary [scores] it updates is
    an object of its own. *)
Theorem categorize_text_deterministic (w : Heap.world) (text : string)
    (a : nat) (table : Dict.t (list string)) :
  Dict.get (Heap.names w) "SPORT_CATEGORIES" = Some a ->
  nth_error (Heap.objects w) a = Some (Heap.DictOfLists table) ->
  let first := Heap.categorize_text_st text w in
  let second := Heap.categorize_text_st text (snd first) in
  fst second = fst first /\
  fst first = categorize_text_in table text /\
  Heap.names (snd first) = Heap.names w /\
  Heap.names (snd second) = Heap.names w /\
  (forall b o, nth_error (Heap.objects w) b = Some o ->
     nth_error (Heap.objects (snd first)) b = Some o /\
     nth_error (Heap.objects (snd second)) b = Some o).
Proof.
  intros Hname Hobj. cbv zeta.
  destruct (HeapFacts.call_run text w a table Hname Hobj) as [d1 Hfirst].
  rewrite Hfirst. cbn [fst snd].
  assert (Hobj1 : nth_error
            (Heap.objects (Heap.with_scores (Heap.names w)
                             (Heap.objects w) d1)) a
          = Some (Heap.DictOfLists table)).
  { now apply HeapFacts.nth_error_before. }
  destruct (HeapFacts.call_run text
              (Heap.with_scores (Heap.names w) (Heap.objects w) d1)
              a table Hname Hobj1) as [d2 Hsecond].
  rewrite Hsecond. cbn [fst snd Heap.with_scores Heap.names Heap.objects].
  repeat split; try reflexivity.
  - now apply HeapFacts.nth_error_before.
  - now apply HeapFacts.nth_error_before, HeapFacts.nth_error_before.
Qed.

Lemma categorize_text_deterministic_witness :
  fst (Heap.categorize_text_st "Dhoni hit the ball"
         (snd (Heap.categorize_text_st "Dhoni hit the ball" Heap.module_world)))
  = fst (Heap.categorize_text_st "Dhoni hit the ball" Heap.module_world) /\
  fst (Heap.categorize_text_st "Dhoni hit the ball" Heap.module_world)
  = categorize_text "Dhoni hit the ball".
Proof.
  destruct (categorize_text_deterministic Heap.module_world
              "Dhoni hit the ball" 1 SPORT_CATEGORIES eq_refl eq_refl)
    as [Hsame [Hbody _]].
  split; [exact Hsame | exact Hbody].
Defined.

(** On the reference table the classifier raises no exception. *)
Lemma categorize_text_total (text : string) :
  exists label, categorize_text text = Ok label.
Proof.
  unfold categorize_text, categorize_text_in.
  rewrite Scoring.count_keywords_scores by exact Reference.labels_distinct.
  cbn [bind]. rewrite Scoring.keys_score_table.
  unfold score_table. cbn [SPORT_CATEGORIES map Dict.keys fst].
  cbn [py_max max_scan Dict.get String.eqb Ascii.eqb Bool.eqb py_gt bind].
  repeat match goal with
         | |- context [if ?b then _ else _] => destruct b
         end;
    cbn [max_scan bind py_gt Dict.getitem Dict.get String.eqb Ascii.eqb Bool.eqb];
    eexists; reflexivity.
Qed.

(** ** Substring matching *)

Example goal_in_goalie :
  Str.count "goalie" "goal" = 1 /\ Str.count "goal" "goal" = 1 /\
  category_score ["football"; "fifa"; "goal"; "kick"; "soccer"; "messi";
                  "ronaldo"] "the goalie" = 1.
Proof. repeat split. Qed.

(** ** File names *)

Module Filename.
Import Str.

Lemma rsplit_last_none (sep : ascii) (s : string) :
  rsplit_last sep s = None <-> contains_char sep s = false.
Proof.
  induction s as [|c s IH]; simpl; [tauto|].
  destruct (rsplit_last sep s) as [[a b]|].
  - split; [discriminate|]. intro H. apply orb_false_iff in H as [_ H].
    apply IH in H. discriminate.
  - destruct (Ascii.eqb c sep); simpl; split; try discriminate; try reflexivity.
    intros _. now apply IH.
Qed.

Lemma rsplit_last_some (sep : ascii) (s a b : string) :
  rsplit_last sep s = Some (a, b) <->
  s = (a ++ String sep b)%string /\ contains_char sep b = false.
Proof.
  split.
  - revert a; induction s as [|c s IH]; intro a; simpl; [discriminate|].
    destruct (rsplit_last sep s) as [[a' b']|] eqn:E.
    + intro H; injection H as <- <-.
      destruct (IH a' eq_refl) as [-> Hb]. now split.
    + destruct (Ascii.eqb_spec c sep) as [->|_]; [|discriminate].
      intro H; injection H as <- <-. split; [reflexivity|].
      now apply rsplit_last_none.
  - intros [-> Hb]. induction a as [|c a IH]; simpl.
    + apply rsplit_last_none in Hb. rewrite Hb. now rewrite Ascii.eqb_refl.
    + now rewrite IH.
Qed.

Lemma set_mem_allowed (ext : string) :
  set_mem ext ALLOWED_EXTENSIONS = true <-> ext = "pdf" \/ ext = "docx".
Proof.
  unfold set_mem, ALLOWED_EXTENSIONS. cbn [existsb].
  rewrite orb_false_r, orb_true_iff, !String.eqb_eq. tauto.
Qed.

(** The value of [allowed_file] in terms of the split at the last dot. *)
Lemma allowed_file_split (filename : string) :
  allowed_file filename =
  Ok match rsplit_last "." filename with
     | Some (_, ext) => set_mem (lower ext) ALLOWED_EXTENSIONS
     | None => false
     end.
Proof.
  unfold allowed_file, allowed_file_in, rsplit1.
  destruct (rsplit_last "." filename) as [[a b]|] eqn:E.
  - destruct (contains_char "." filename) eqn:C; [reflexivity|].
    apply rsplit_last_none in C. congruence.
  - apply rsplit_last_none in E. now rewrite E.
Qed.

Lemma allowed_file_true (filename : string) :
  allowed_file filename = Ok true <-> has_allowed_extension filename.
Proof.
  rewrite allowed_file_split. split.
  - destruct (rsplit_last "." filename) as [[a b]|] eqn:E; [|discriminate].
    intro H. injection H as H. apply rsplit_last_some in E as [-> Hb].
    exists a, b. split; [reflexivity|]. split; [exact Hb|].
    now apply set_mem_allowed.
  - intros [stem [ext [-> [Hdot Hext]]]].
    assert (E : rsplit_last "." (stem ++ "." ++ ext) = Some (stem, ext)).
    { apply rsplit_last_some. now split. }
    rewrite E. f_equal. now apply set_mem_allowed.
Qed.

End Filename.

(** C5: [allowed_file] accepts a file name exactly when the name contains
    a dot and the part after its last dot, lower-cased, is "pdf" or
    "docx", and rejects it otherwise; "report.PDF" is accepted, "report"
    and "image.png" are rejected. *)
Theorem allowed_file_spec :
  (forall filename,
     (allowed_file filename = Ok true <->
      has_allowed_extension filename) /\
     (allowed_file filename = Ok false <->
      ~ has_allowed_extension filename)) /\
  allowed_file "report.PDF" = Ok true /\
  allowed_file "report" = Ok false /\
  allowed_file "image.png" = Ok false.
Proof.
  split; [|repeat split]. intro filename.
  pose proof (Filename.allowed_file_true filename) as Htrue.
  split; [exact Htrue|].
  rewrite Filename.allowed_file_split in *.
  destruct (match Str.rsplit_last "." filename with
            | Some (_, ext) => set_mem (Str.lower ext) ALLOWED_EXTENSIONS
            | None => false
            end).
  - split; [discriminate|]. intro H. elim H. now apply Htrue.
  - split; [|reflexivity]. intros _ H. apply Htrue in H. discriminate.
Qed.

(** ** Extraction *)

Module Extraction.
Local Open Scope list_scope.
Local Open Scope string_scope.

Lemma pdf_fold (pages : list (option string)) (acc : string) :
  fold_left (fun text page => text ++ or_empty page) pages acc =
  acc ++ String.concat "" (map or_empty pages).
Proof.
  revert acc; induction pages as [|p pages IH]; intro acc; cbn [fold_left map].
  - simpl. now rewrite StrFacts.append_empty_r.
  - rewrite IH, StrFacts.append_assoc. f_equal.
    destruct pages as [|q pages]; simpl; [now rewrite StrFacts.append_empty_r|].
    reflexivity.
Qed.

(** The loop over the pages is the concatenation of their texts. *)
Lemma pdf_text_concat (pages : list (option string)) :
  pdf_text pages = String.concat "" (map or_empty pages).
Proof. unfold pdf_text. now rewrite pdf_fold. Qed.

Lemma pdf_text_app (before after : list (option string)) :
  pdf_text (before ++ after)%list = pdf_text before ++ pdf_text after.
Proof.
  unfold pdf_text. rewrite fold_left_app.
  rewrite (pdf_fold after (fold_left _ before "")), (pdf_fold after "").
  reflexivity.
Qed.

Lemma pdf_text_cons (page : option string) (after : list (option string)) :
  pdf_text (page :: after) = or_empty page ++ pdf_text after.
Proof. apply (pdf_text_app [page] after). Qed.

Lemma docx_text_concat (paragraphs : list string) :
  docx_text paragraphs = String.concat newline paragraphs.
Proof.
  unfold docx_text. induction paragraphs as [|p ps IH]; [reflexivity|].
  destruct ps as [|q ps]; [reflexivity|].
  cbn [Str.join String.concat] in *. now rewrite IH.
Qed.

(** Two consecutive paragraphs are one newline apart. *)
Lemma docx_text_split (before after : list string) (p q : string) :
  docx_text (before ++ p :: q :: after)%list =
  docx_text (before ++ [p])%list ++ newline ++ docx_text (q :: after).
Proof.
  unfold docx_text. induction before as [|b before IH]; [reflexivity|].
  cbn [app]. destruct before as [|b' before].
  - cbn [app Str.join]. now rewrite StrFacts.append_assoc.
  - cbn [app Str.join] in *. rewrite IH. now rewrite !StrFacts.append_assoc.
Qed.

End Extraction.

(** C7: from a file that the reader can read, [extract_text_from_pdf]
    returns the texts of the pages put together in page order with nothing
    between them, a page without text giving the empty string, and
    [extract_text_from_docx] returns the texts of the paragraphs in
    document order with one newline between two consecutive ones. *)
Theorem extract_text_in_order
    (PdfReader_pages : string -> result (list (option string)))
    (Document_paragraphs : string -> result (list string))
    (disk : filesystem) (filepath bytes : string) :
  read_file disk filepath = Ok bytes ->
  (forall pages, PdfReader_pages bytes = Ok pages ->
     extract_text_from_pdf PdfReader_pages disk filepath
     = Ok (String.concat "" (map or_empty pages))) /\
  (forall before t after,
     PdfReader_pages bytes = Ok (before ++ Some t :: after)%list ->
     extract_text_from_pdf PdfReader_pages disk filepath
     = Ok (pdf_text before ++ t ++ pdf_text after)%string) /\
  (forall before after,
     PdfReader_pages bytes = Ok (before ++ None :: after)%list ->
     extract_text_from_pdf PdfReader_pages disk filepath
     = Ok (pdf_text before ++ pdf_text after)%string) /\
  (forall paragraphs, Document_paragraphs bytes = Ok paragraphs ->
     extract_text_from_docx Document_paragraphs disk filepath
     = Ok (String.concat newline paragraphs)) /\
  (forall before p q after,
     Document_paragraphs bytes = Ok (before ++ p :: q :: after)%list ->
     extract_text_from_docx Document_paragraphs disk filepath
     = Ok (docx_text (before ++ [p])%list ++ newline
           ++ docx_text (q :: after))%string).
Proof.
  intro Hread.
  assert (Hget : Dict.get disk filepath = Some bytes).
  { unfold read_file in Hread. destruct (Dict.get disk filepath);
      [now injection Hread as -> | discriminate]. }
  unfold extract_text_from_pdf, extract_text_from_docx, Document.
  rewrite Hread, Hget. cbn [bind]. repeat split.
  - intros pages ->. cbn [bind]. now rewrite Extraction.pdf_text_concat.
  - intros before t after ->. cbn [bind].
    now rewrite Extraction.pdf_text_app, Extraction.pdf_text_cons.
  - intros before after ->. cbn [bind].
    now rewrite Extraction.pdf_text_app, Extraction.pdf_text_cons.
  - intros paragraphs ->. cbn [bind]. now rewrite Extraction.docx_text_concat.
  - intros before p q after ->. cbn [bind].
    now rewrite Extraction.docx_text_split.
Qed.

Lemma extract_text_in_order_witness :
  extract_text_from_pdf
    (fun _ => Ok [Some "Messi scored. "; None; Some "A great goal."])
    [("uploads/match.pdf", "%PDF")] "uploads/match.pdf"
  = Ok "Messi scored. A great goal." /\
  extract_text_from_docx
    (fun _ => Ok ["Messi scored."; "A great goal."])
    [("uploads/match.pdf", "%PDF")] "uploads/match.pdf"
  = Ok (String.concat newline ["Messi scored."; "A great goal."]).
Proof.
  destruct (extract_text_in_order
              (fun _ => Ok [Some "Messi scored. "; None; Some "A great goal."])
              (fun _ => Ok ["Messi scored."; "A great goal."])
              [("uploads/match.pdf", "%PDF")] "uploads/match.pdf" "%PDF"
              eq_refl) as [Hpdf [_ [_ [Hdocx _]]]].
  split.
  - exact (Hpdf _ eq_refl).
  - exact (Hdocx _ eq_refl).
Defined.

(** ** The request handler *)

Section HandlerFacts.
Variable PdfReader_pages : string -> result (list (option string)).
Variable Document_paragraphs : string -> result (list string).
Variable secure_filename : string -> string.
Variable UPLOAD_FOLDER : string.
Variable can_write : filesystem -> string -> string -> bool.

Lemma no_file_part (disk : filesystem) :
  upload_file PdfReader_pages Document_paragraphs secure_filename UPLOAD_FOLDER
    can_write
    {| method := POST; files := [] |} disk
  = (Ok (Some "No file part"), disk).
Proof. reflexivity. Qed.

Lemma no_selected_file (bytes : string) (disk : filesystem) :
  upload_file PdfReader_pages Document_paragraphs secure_filename UPLOAD_FOLDER
    can_write
    (post_file {| filename := ""; stream := bytes |}) disk
  = (Ok (Some "No selected file"), disk).
Proof. reflexivity. Qed.

(** A file whose name [allowed_file] rejects: no branch of the handler
    is taken, [category] stays [None] and the page shows no label. *)
Lemma rejected_name_no_label (file : FileStorage) (disk : filesystem) :
  filename file <> "" ->
  allowed_file (filename file) = Ok false ->
  upload_file PdfReader_pages Document_paragraphs secure_filename UPLOAD_FOLDER
    can_write
    (post_file file) disk
  = (Ok None, disk).
Proof.
  intros Hname Hrej. unfold upload_file, upload_category, post_file.
  cbn [method files Dict.mem Dict.getitem Dict.get String.eqb Ascii.eqb
       Bool.eqb negb].
  apply String.eqb_neq in Hname. rewrite Hname.
  unfold file_truthy. rewrite Hname. cbn [negb]. rewrite Hrej.
  reflexivity.
Qed.

(** The label "Unsupported file type" is set only past [allowed_file],
    for an accepted name that [secure_filename] strips of its
    extension. *)
Lemma unsupported_label_reached (bytes : string) (disk : filesystem) :
  secure_filename ".pdf" = "pdf" ->
  can_write disk (os_path_join UPLOAD_FOLDER "pdf") bytes = true ->
  fst (upload_file PdfReader_pages Document_paragraphs secure_filename
         UPLOAD_FOLDER can_write
         (post_file {| filename := ".pdf"; stream := bytes |}) disk)
  = Ok (Some "Unsupported file type").
Proof.
  intros Hsec Hwrite. unfold upload_file, upload_category, post_file.
  cbn [method files Dict.mem Dict.getitem Dict.get String.eqb Ascii.eqb
       Bool.eqb negb filename file_truthy stream].
  change (allowed_file ".pdf") with (Ok (A := bool) true). cbv iota.
  rewrite Hsec. unfold save. rewrite Hwrite. reflexivity.
Qed.

End HandlerFacts.

(** C6: a POST request with the file "image.png", a name that
    [allowed_file] rejects, gets a page without any label: the handler
    returns with [category] still [None], and the disk is untouched. *)
Theorem upload_file_disallowed_extension
    (PdfReader_pages : string -> result (list (option string)))
    (Document_paragraphs : string -> result (list string))
    (secure_filename : string -> string) (UPLOAD_FOLDER : string)
    (can_write : filesystem -> string -> string -> bool) (bytes : string)
    (disk : filesystem) :
  allowed_file "image.png" = Ok false /\
  upload_file PdfReader_pages Document_paragraphs secure_filename UPLOAD_FOLDER
    can_write
    (post_file {| filename := "image.png"; stream := bytes |}) disk
  = (Ok None, disk).
Proof. split; reflexivity. Qed.


(** * Further properties of the code *)

(** ** Where the maximum of the scores is *)

Module FirstMax.
Import DictFacts Scoring.
Local Open Scope list_scope.
Local Open Scope nat_scope.

(** Every non-empty list has a first element of maximal measure. *)
Lemma first_max_exists {A : Type} (f : A -> nat) (l : list A) :
  l <> [] ->
  exists l1 x l2,
    l = l1 ++ x :: l2 /\
    (forall y, In y l1 -> f y < f x) /\
    (forall y, In y l2 -> f y <= f x).
Proof.
  induction l as [|y l IH]; intro Hne; [now elim Hne|].
  destruct l as [|z l].
  - exists [], y, []. repeat split; intros ? [].
  - destruct IH as [l1 [x [l2 [Hl [H1 H2]]]]]; [discriminate|].
    destruct (le_lt_dec (f x) (f y)) as [Hle|Hlt].
    + exists [], y, (z :: l). repeat split; [intros ? []|].
      intros w Hw. rewrite Hl in Hw. apply in_app_or in Hw as [Hw|[<-|Hw]].
      * specialize (H1 _ Hw). lia.
      * exact Hle.
      * specialize (H2 _ Hw). lia.
    + exists (y :: l1), x, l2. rewrite Hl. repeat split; [|exact H2].
      intros w [<-|Hw]; [exact Hlt | now apply H1].
Qed.

(** In a list with distinct keys an entry stands at one place only. *)
Lemma split_unique {V : Type} (k : string) (v v' : V)
    (l1 l2 l1' l2' : Dict.t V) :
  NoDup (Dict.keys (l1 ++ (k, v) :: l2)) ->
  l1 ++ (k, v) :: l2 = l1' ++ (k, v') :: l2' ->
  l1 = l1' /\ v = v' /\ l2 = l2'.
Proof.
  revert l1'; induction l1 as [|e l1 IH]; intros l1' Hnd Heq.
  - destruct l1' as [|e' l1'].
    + injection Heq as -> ->. now repeat split.
    + exfalso. cbn [app] in Heq. injection Heq as <- ->.
      cbn [app Dict.keys map fst] in Hnd. apply NoDup_cons_iff in Hnd as [Hn _].
      apply Hn. change (In k (Dict.keys (l1' ++ (k, v') :: l2'))).
      rewrite keys_app. apply in_or_app. right. now left.
  - destruct l1' as [|e' l1'].
    + exfalso. cbn [app] in Heq. injection Heq as -> <-.
      cbn [app Dict.keys map fst] in Hnd. apply NoDup_cons_iff in Hnd as [Hn _].
      apply Hn. change (In k (Dict.keys (l1 ++ (k, v) :: l2))).
      rewrite keys_app. apply in_or_app. right. now left.
    + cbn [app] in Heq. injection Heq as <- Heq.
      cbn [app Dict.keys map fst] in Hnd. apply NoDup_cons_iff in Hnd as [_ Hnd].
      destruct (IH l1' Hnd Heq) as [-> [-> ->]]. now repeat split.
Qed.

Section Table.
Variable table : Dict.t (list string).
Hypothesis table_keys : NoDup (Dict.keys table).
Hypothesis table_not_empty : table <> [].

(** The answer of the classifier, for every text: the label of the first
    category of maximal score, or "Unknown" when that score is 0. *)
Lemma answer (text : string) :
  exists pre sport keywords post,
    table = pre ++ (sport, keywords) :: post /\
    (forall s k, In (s, k) pre ->
       category_score k text < category_score keywords text) /\
    (forall s k, In (s, k) post ->
       category_score k text <= category_score keywords text) /\
    categorize_text_in table text =
    Ok (if 0 <? category_score keywords text then sport else "Unknown").
Proof.
  destruct (first_max_exists (fun e => category_score (snd e) text) table
              table_not_empty) as [pre [[sport keywords] [post [Ht [H1 H2]]]]].
  cbn [snd] in H1, H2.
  exists pre, sport, keywords, post.
  assert (Hpre : forall s k, In (s, k) pre ->
            category_score k text < category_score keywords text).
  { intros s k Hin. exact (H1 (s, k) Hin). }
  assert (Hpost : forall s k, In (s, k) post ->
            category_score k text <= category_score keywords text).
  { intros s k Hin. exact (H2 (s, k) Hin). }
  repeat split; try assumption.
  now apply (Classifier.first_max table table_keys text sport keywords pre post).
Qed.

End Table.

End FirstMax.

(** ** What the classifier answers *)

Module Answer.

Lemma range (text : string) :
  exists label,
    categorize_text text = Ok label /\
    (label = "Unknown" \/ In label (Dict.keys SPORT_CATEGORIES)).
Proof.
  destruct (FirstMax.answer SPORT_CATEGORIES Reference.labels_distinct
              ltac:(discriminate) text)
    as [pre [sport [keywords [post [Ht [_ [_ Hres]]]]]]].
  unfold categorize_text. rewrite Hres.
  destruct (0 <? category_score keywords text).
  - exists sport. split; [reflexivity|]. right.
    rewrite Ht, DictFacts.keys_app. apply in_or_app. right. now left.
  - exists "Unknown". split; [reflexivity | now left].
Qed.

Lemma unknown_iff (text : string) :
  categorize_text text = Ok "Unknown" <->
  (forall sport keywords, In (sport, keywords) SPORT_CATEGORIES ->
     category_score keywords text = 0).
Proof.
  split.
  - intros Hres sport keywords Hin.
    destruct (FirstMax.answer SPORT_CATEGORIES Reference.labels_distinct
                ltac:(discriminate) text)
      as [pre [best [kws [post [Ht [Hpre [Hpost Hans]]]]]]].
    unfold categorize_text in Hres. rewrite Hans in Hres.
    destruct (0 <? category_score kws text) eqn:Hpos.
    + exfalso. injection Hres as Hbest.
      assert (Hb : In best (Dict.keys SPORT_CATEGORIES)).
      { rewrite Ht, DictFacts.keys_app. apply in_or_app. right. now left. }
      rewrite Hbest in Hb. simpl in Hb. intuition discriminate.
    + apply Nat.ltb_ge in Hpos.
      rewrite Ht in Hin. apply in_app_or in Hin as [Hin|[Hin|Hin]].
      * specialize (Hpre _ _ Hin). lia.
      * injection Hin as _ <-. lia.
      * specialize (Hpost _ _ Hin). lia.
  - intro Hzero.
    apply (Classifier.all_zero _ Reference.labels_distinct);
      [discriminate | exact Hzero].
Qed.

End Answer.



(** X1: [categorize_text] raises nothing, and its answer is a label of the
    table or "Unknown": the lookups [scores[sport]] and [scores[best_sport]]
    find their key, and [max] has something to scan. *)
Theorem categorize_text_answer_range (text : string) :
  exists label,
    categorize_text text = Ok label /\
    (label = "Unknown" \/ In label (Dict.keys SPORT_CATEGORIES)).
Proof. exact (Answer.range text). Qed.

(** X2: the answer is "Unknown" exactly when every category scores 0. *)
Theorem categorize_text_unknown_iff (text : string) :
  categorize_text text = Ok "Unknown" <->
  (forall sport keywords, In (sport, keywords) SPORT_CATEGORIES ->
     category_score keywords text = 0).
Proof. exact (Answer.unknown_iff text). Qed.

(** X3: when the answer is a label of the table, its category has a positive
    score, every category written before it scores strictly less and no
    category scores more. *)
Theorem categorize_text_answer_is_first_max (text sport : string)
    (keywords : list string) (pre post : Dict.t (list string)) :
  SPORT_CATEGORIES = (pre ++ (sport, keywords) :: post)%list ->
  categorize_text text = Ok sport ->
  0 < category_score keywords text /\
  (forall s k, In (s, k) pre ->
     category_score k text < category_score keywords text) /\
  (forall s k, In (s, k) post ->
     category_score k text <= category_score keywords text).
Proof.
  intros Ht Hres.
  destruct (FirstMax.answer SPORT_CATEGORIES Reference.labels_distinct
              ltac:(discriminate) text)
    as [pre' [best [kws [post' [Ht' [Hpre [Hpost Hans]]]]]]].
  unfold categorize_text in Hres. rewrite Hans in Hres.
  assert (Hin : In sport (Dict.keys SPORT_CATEGORIES)).
  { rewrite Ht, DictFacts.keys_app. apply in_or_app. right. now left. }
  destruct (0 <? category_score kws text) eqn:Hpos.
  - injection Hres as ->. apply Nat.ltb_lt in Hpos.
    assert (Hnd : NoDup (Dict.keys (pre ++ (sport, keywords) :: post)%list)).
    { rewrite <- Ht. exact Reference.labels_distinct. }
    rewrite Ht in Ht'.
    destruct (FirstMax.split_unique _ _ _ _ _ _ _ Hnd Ht') as [-> [-> ->]].
    now repeat split.
  - exfalso. injection Hres as Hu. rewrite <- Hu in Hin.
    simpl in Hin. intuition discriminate.
Qed.

Lemma categorize_text_answer_is_first_max_witness :
  0 < category_score ["hockey"; "stick"; "puck"; "ice"; "nhl"; "goalie"; "rink"]
        "Ice rink: the puck." /\
  category_score ["football"; "fifa"; "goal"; "kick"; "soccer"; "messi";
                  "ronaldo"] "Ice rink: the puck."
  < category_score ["hockey"; "stick"; "puck"; "ice"; "nhl"; "goalie"; "rink"]
      "Ice rink: the puck.".
Proof.
  destruct (categorize_text_answer_is_first_max "Ice rink: the puck." "Hockey"
              ["hockey"; "stick"; "puck"; "ice"; "nhl"; "goalie"; "rink"]
              (firstn 4 SPORT_CATEGORIES) [] eq_refl eq_refl)
    as [Hpos [Hpre _]].
  split; [exact Hpos|].
  apply (Hpre "Football"). simpl; tauto.
Defined.

(** ** More on strings and dictionaries *)

Module More.
Import Str.
Local Open Scope list_scope.
Local Open Scope nat_scope.

Lemma get_set_same {V : Type} (d : Dict.t V) (k : string) (v : V) :
  Dict.get (Dict.set d k v) k = Some v.
Proof.
  induction d as [|[k' v'] d IH]; simpl.
  - now rewrite String.eqb_refl.
  - destruct (String.eqb k' k) eqn:E; simpl; rewrite E; [reflexivity | exact IH].
Qed.


Lemma substring_append (a b : string) (m : nat) :
  substring (String.length a) m (a ++ b) = substring 0 m b.
Proof. induction a as [|c a IH]; simpl; [reflexivity | exact IH]. Qed.

Lemma substring_all (b : string) : substring 0 (String.length b) b = b.
Proof. induction b as [|c b IH]; simpl; [reflexivity | now rewrite IH]. Qed.

Lemma endswith_append (a b : string) : endswith (a ++ b) b = true.
Proof.
  unfold endswith. rewrite StrFacts.length_append.
  replace (String.length b <=? String.length a + String.length b) with true
    by (symmetry; apply Nat.leb_le; lia).
  replace (String.length a + String.length b - String.length b)
    with (String.length a) by lia.
  rewrite substring_append, substring_all. cbn [andb]. apply String.eqb_refl.
Qed.

Lemma lower_ascii_dot (c : ascii) :
  Ascii.eqb (lower_ascii c) "." = Ascii.eqb c ".".
Proof. destruct c as [[] [] [] [] [] [] [] []]; reflexivity. Qed.

Lemma contains_dot_lower (s : string) :
  contains_char "." (lower s) = contains_char "." s.
Proof.
  induction s as [|c s IH]; simpl; [reflexivity|].
  now rewrite lower_ascii_dot, IH.
Qed.

(** A name that [allowed_file] accepts ends, lower-cased, in ".pdf" or in
    ".docx". *)
Lemma allowed_name_ends (filename : string) :
  allowed_file filename = Ok true ->
  endswith (lower filename) ".pdf" = true \/
  endswith (lower filename) ".docx" = true.
Proof.
  intro H. apply Filename.allowed_file_true in H
    as [stem [ext [-> [_ [Hext|Hext]]]]];
    rewrite !StrFacts.lower_append, Hext; [left|right];
    apply (endswith_append (lower stem)).
Qed.

(** The labels of the table and "Unknown" are not the empty string, nor
    one of the messages of the handler. *)
Lemma answer_not_message (text label : string) :
  categorize_text text = Ok label ->
  label <> "" /\ label <> "Unsupported file type" /\
  label <> "No file part" /\ label <> "No selected file".
Proof.
  intro H. destruct (Answer.range text) as [l [Hl Hr]].
  rewrite H in Hl. injection Hl as <-.
  simpl in Hr. repeat split; intros ->; intuition discriminate.
Qed.

End More.

(** ** The paths through the handler *)

Section Paths.
Variable PdfReader_pages : string -> result (list (option string)).
Variable Document_paragraphs : string -> result (list string).
Variable secure_filename : string -> string.
Variable UPLOAD_FOLDER : string.
Variable can_write : filesystem -> string -> string -> bool.

(** A POST request whose file has an accepted name: the file is saved
    under its sanitized name and the saved file is processed, unless the
    file system refuses the write. *)
Lemma accepted_path (req : request) (file : FileStorage) (disk : filesystem) :
  method req = POST ->
  Dict.get (files req) "file" = Some file ->
  allowed_file (filename file) = Ok true ->
  upload_category PdfReader_pages Document_paragraphs secure_filename
    UPLOAD_FOLDER can_write req disk
  = (let name := secure_filename (filename file) in
     let filepath := os_path_join UPLOAD_FOLDER name in
     match save can_write disk filepath (stream file) with
     | Raise e => (Raise e, disk)
     | Ok saved =>
         (process_saved PdfReader_pages Document_paragraphs saved name
            filepath, saved)
     end).
Proof.
  intros Hm Hget Hok. unfold upload_category, Dict.mem, Dict.getitem.
  rewrite Hm, Hget. cbn [negb].
  destruct (String.eqb_spec (filename file) "") as [Hname|Hname].
  - rewrite Hname in Hok. discriminate Hok.
  - unfold file_truthy.
    replace (String.eqb (filename file) "") with false
      by (symmetry; now apply String.eqb_neq).
    cbn [negb]. rewrite Hok. reflexivity.
Qed.

(** Every other request: [category] is a message or [None], and the disk
    is as before. *)
Lemma other_paths (req : request) (disk : filesystem) :
  (forall file, method req = POST ->
     Dict.get (files req) "file" = Some file ->
     allowed_file (filename file) <> Ok true) ->
  exists category,
    upload_category PdfReader_pages Document_paragraphs secure_filename
      UPLOAD_FOLDER can_write req disk = (Ok category, disk) /\
    (category = None \/ category = Some "No file part" \/
     category = Some "No selected file").
Proof.
  intro Hrej. unfold upload_category, Dict.mem, Dict.getitem.
  destruct (method req) eqn:Hm; [exists None; now split; [|left]|].
  destruct (Dict.get (files req) "file") as [file|] eqn:Hget; cbn [negb].
  - destruct (String.eqb (filename file) "") eqn:Hname.
    + eexists; split; [reflexivity | now right; right].
    + unfold file_truthy. rewrite Hname. cbn [negb].
      specialize (Hrej file eq_refl eq_refl).
      rewrite Filename.allowed_file_split in *.
      destruct (match Str.rsplit_last "." (filename file) with
                | Some (_, ext) => set_mem (Str.lower ext) ALLOWED_EXTENSIONS
                | None => false
                end); [now elim Hrej|].
      exists None. now split; [|left].
  - eexists; split; [reflexivity | now right; left].
Qed.

(** After [file.save], opening the saved path gives the uploaded bytes. *)
Lemma read_saved (disk : filesystem) (filepath bytes : string) :
  read_file (Dict.set disk filepath bytes) filepath = Ok bytes.
Proof. unfold read_file. now rewrite More.get_set_same. Qed.

Lemma process_pdf (disk : filesystem) (name filepath : string) :
  Str.endswith (Str.lower name) ".pdf" = true ->
  process_saved PdfReader_pages Document_paragraphs disk name filepath
  = (file_text <- extract_text_from_pdf PdfReader_pages disk filepath ;;
     label_of_text file_text).
Proof.
  intro H. unfold process_saved. rewrite H.
  destruct (extract_text_from_pdf PdfReader_pages disk filepath); reflexivity.
Qed.

Lemma process_docx (disk : filesystem) (name filepath : string) :
  Str.endswith (Str.lower name) ".pdf" = false ->
  Str.endswith (Str.lower name) ".docx" = true ->
  process_saved PdfReader_pages Document_paragraphs disk name filepath
  = (file_text <- extract_text_from_docx Document_paragraphs disk filepath ;;
     label_of_text file_text).
Proof.
  intros H1 H2. unfold process_saved. rewrite H1, H2.
  destruct (extract_text_from_docx Document_paragraphs disk filepath);
    reflexivity.
Qed.

Lemma process_other (disk : filesystem) (name filepath : string) :
  Str.endswith (Str.lower name) ".pdf" = false ->
  Str.endswith (Str.lower name) ".docx" = false ->
  process_saved PdfReader_pages Document_paragraphs disk name filepath
  = Ok (Some "Unsupported file type").
Proof. intros H1 H2. unfold process_saved. now rewrite H1, H2. Qed.

(** A text that is not empty gets the answer of the classifier as its
    label; the empty text gets none. *)
Lemma label_of_text_cases (file_text : string) :
  (file_text = "" /\ label_of_text file_text = Ok None) \/
  (file_text <> "" /\
   exists label, categorize_text file_text = Ok label /\
                 label_of_text file_text = Ok (Some label)).
Proof.
  unfold label_of_text. destruct (String.eqb_spec file_text "") as [->|Hne].
  - left. now split.
  - right. split; [exact Hne|].
    destruct (Answer.range file_text) as [label [Hl _]].
    exists label. rewrite Hl. now split.
Qed.

End Paths.

Section Outcomes.
Variable PdfReader_pages : string -> result (list (option string)).
Variable Document_paragraphs : string -> result (list string).
Variable secure_filename : string -> string.
Variable UPLOAD_FOLDER : string.
Variable can_write : filesystem -> string -> string -> bool.

(** The page for an accepted upload. *)
Lemma accepted_page (req : request) (file : FileStorage) (disk : filesystem) :
  method req = POST ->
  Dict.get (files req) "file" = Some file ->
  allowed_file (filename file) = Ok true ->
  upload_file PdfReader_pages Document_paragraphs secure_filename
    UPLOAD_FOLDER can_write req disk
  = (let name := secure_filename (filename file) in
     let filepath := os_path_join UPLOAD_FOLDER name in
     match save can_write disk filepath (stream file) with
     | Raise e => (Raise e, disk)
     | Ok saved =>
         (c <- process_saved PdfReader_pages Document_paragraphs saved name
                 filepath ;;
          Ok (rendered_category c),
          saved)
     end).
Proof.
  intros Hm Hget Hok. unfold upload_file.
  rewrite (accepted_path _ _ _ _ _ req file disk Hm Hget Hok). cbv zeta.
  now destruct (save can_write disk _ (stream file)).
Qed.

(** The page for an accepted upload that the file system takes. *)
Lemma saved_page (req : request) (file : FileStorage) (disk : filesystem) :
  method req = POST ->
  Dict.get (files req) "file" = Some file ->
  allowed_file (filename file) = Ok true ->
  can_write disk
    (os_path_join UPLOAD_FOLDER (secure_filename (filename file)))
    (stream file) = true ->
  upload_file PdfReader_pages Document_paragraphs secure_filename
    UPLOAD_FOLDER can_write req disk
  = (let name := secure_filename (filename file) in
     let filepath := os_path_join UPLOAD_FOLDER name in
     let saved := Dict.set disk filepath (stream file) in
     (c <- process_saved PdfReader_pages Document_paragraphs saved name
             filepath ;;
      Ok (rendered_category c),
      saved)).
Proof.
  intros Hm Hget Hok Hwrite. rewrite (accepted_page req file disk Hm Hget Hok).
  cbv zeta. unfold save. now rewrite Hwrite.
Qed.

(** The shown label of an accepted upload comes from the saved file. *)
Lemma accepted_shown (req : request) (file : FileStorage) (disk : filesystem)
    (shown : option string) :
  method req = POST ->
  Dict.get (files req) "file" = Some file ->
  allowed_file (filename file) = Ok true ->
  fst (upload_file PdfReader_pages Document_paragraphs secure_filename
         UPLOAD_FOLDER can_write req disk) = Ok shown ->
  exists saved,
    (c <- process_saved PdfReader_pages Document_paragraphs saved
            (secure_filename (filename file))
            (os_path_join UPLOAD_FOLDER (secure_filename (filename file))) ;;
     Ok (rendered_category c)) = Ok shown.
Proof.
  intros Hm Hget Hok. rewrite (accepted_page req file disk Hm Hget Hok).
  cbv zeta. destruct (save can_write disk _ (stream file)) as [saved|e];
    cbn [fst]; [|discriminate].
  intro H. now exists saved.
Qed.

(** The page for any other request. *)
Lemma other_page (req : request) (disk : filesystem) :
  (forall file, method req = POST ->
     Dict.get (files req) "file" = Some file ->
     allowed_file (filename file) <> Ok true) ->
  exists shown,
    upload_file PdfReader_pages Document_paragraphs secure_filename
      UPLOAD_FOLDER can_write req disk = (Ok shown, disk) /\
    (shown = None \/ shown = Some "No file part" \/
     shown = Some "No selected file").
Proof.
  intro Hrej. unfold upload_file.
  destruct (other_paths PdfReader_pages Document_paragraphs secure_filename
              UPLOAD_FOLDER can_write req disk Hrej) as [category [-> Hc]].
  destruct Hc as [-> | [-> | ->]]; eexists; (split; [reflexivity|]); tauto.
Qed.

(** A request is an accepted upload, or it is not. *)
Lemma accepted_or_not (req : request) :
  (exists file, method req = POST /\
     Dict.get (files req) "file" = Some file /\
     allowed_file (filename file) = Ok true) \/
  (forall file, method req = POST ->
     Dict.get (files req) "file" = Some file ->
     allowed_file (filename file) <> Ok true).
Proof.
  destruct (method req); [right; discriminate|].
  destruct (Dict.get (files req) "file") as [file|]; [|right; discriminate].
  pose proof (Filename.allowed_file_split (filename file)) as Hs.
  destruct (match Str.rsplit_last "." (filename file) with
            | Some (_, ext) => set_mem (Str.lower ext) ALLOWED_EXTENSIONS
            | None => false
            end).
  - left. exists file. now repeat split.
  - right. intros f _ Hf. injection Hf as <-. rewrite Hs. discriminate.
Qed.

(** What the page of an accepted upload shows, by the sanitized name. *)
Lemma shown_of_saved (disk : filesystem) (name filepath : string)
    (shown : option string) :
  (c <- process_saved PdfReader_pages Document_paragraphs disk name filepath ;;
   Ok (rendered_category c)) = Ok shown ->
  shown = None \/
  (shown = Some "Unsupported file type" /\
   Str.endswith (Str.lower name) ".pdf" = false /\
   Str.endswith (Str.lower name) ".docx" = false) \/
  (exists text label,
     categorize_text text = Ok label /\ shown = Some label).
Proof.
  assert (Htext : forall r : result string,
            (c <- (file_text <- r ;; label_of_text file_text) ;;
             Ok (rendered_category c)) = Ok shown ->
            shown = None \/
            exists text label, categorize_text text = Ok label /\
                               shown = Some label).
  { intros [text|e]; cbn [bind]; [|discriminate].
    destruct (label_of_text_cases text) as [[_ ->] | [_ [label [Hl ->]]]];
      cbn [bind rendered_category].
    - intro H; injection H as <-. now left.
    - destruct (More.answer_not_message _ _ Hl) as [Hne _].
      apply String.eqb_neq in Hne. rewrite Hne.
      intro H; injection H as <-. right. now exists text, label. }
  destruct (Str.endswith (Str.lower name) ".pdf") eqn:Hpdf.
  - rewrite process_pdf by exact Hpdf. intro H.
    destruct (Htext _ H) as [-> | Hl]; [now left | now right; right].
  - destruct (Str.endswith (Str.lower name) ".docx") eqn:Hdocx.
    + rewrite process_docx by assumption. intro H.
      destruct (Htext _ H) as [-> | Hl]; [now left | now right; right].
    + rewrite process_other by assumption. cbn [bind rendered_category].
      intro H; injection H as <-. right; left. now repeat split.
Qed.

End Outcomes.

(** ** allowed_file: only the last extension *)

(** X4: for a name [stem.ext] with no dot in [ext], [allowed_file] raises
    nothing and returns whether [ext], lower-cased, is an allowed
    extension; the stem, with its own dots, and the letter case of [ext]
    do not matter. *)
Theorem allowed_file_last_extension_only (stem stem' ext ext' : string) :
  Str.contains_char "." ext = false ->
  Str.lower ext' = Str.lower ext ->
  allowed_file (stem ++ "." ++ ext)
  = Ok (set_mem (Str.lower ext) ALLOWED_EXTENSIONS) /\
  allowed_file (stem' ++ "." ++ ext') = allowed_file (stem ++ "." ++ ext).
Proof.
  intros Hdot Hlow.
  assert (Hdot' : Str.contains_char "." ext' = false).
  { rewrite <- More.contains_dot_lower, Hlow, More.contains_dot_lower.
    exact Hdot. }
  assert (Hval : forall s e, Str.contains_char "." e = false ->
            allowed_file (s ++ "." ++ e)
            = Ok (set_mem (Str.lower e) ALLOWED_EXTENSIONS)).
  { intros s e He. rewrite Filename.allowed_file_split.
    assert (E : Str.rsplit_last "." (s ++ "." ++ e) = Some (s, e)).
    { apply Filename.rsplit_last_some. now split. }
    now rewrite E. }
  split; [now apply Hval|].
  rewrite !Hval by assumption. now rewrite Hlow.
Qed.

Lemma allowed_file_last_extension_only_witness :
  allowed_file "notes.exe.PdF" = Ok true /\
  allowed_file ".pdf" = allowed_file "notes.exe.PdF".
Proof.
  exact (allowed_file_last_extension_only "notes.exe" "" "PdF" "pdf"
           eq_refl eq_refl).
Defined.

(** ** The handler: disk, exceptions and labels *)



(** X6: a request that is not an accepted upload (a GET, a POST without
    the part "file", or a file whose name [allowed_file] does not accept)
    raises nothing, writes nothing, and its page shows "No file part",
    "No selected file" or no label at all. *)
Theorem upload_file_not_accepted
    (PdfReader_pages : string -> result (list (option string)))
    (Document_paragraphs : string -> result (list string))
    (secure_filename : string -> string) (UPLOAD_FOLDER : string)
    (can_write : filesystem -> string -> string -> bool)
    (req : request) (disk : filesystem) :
  (forall file, method req = POST ->
     Dict.get (files req) "file" = Some file ->
     allowed_file (filename file) <> Ok true) ->
  exists shown,
    upload_file PdfReader_pages Document_paragraphs secure_filename
      UPLOAD_FOLDER can_write req disk = (Ok shown, disk) /\
    (shown = None \/ shown = Some "No file part" \/
     shown = Some "No selected file").
Proof. apply other_page. Qed.

Lemma upload_file_not_accepted_witness :
  exists shown,
    upload_file (fun _ => Ok []) (fun _ => Ok []) (fun name => name) "uploads"
      (fun _ _ _ => true)
      (post_file {| filename := "archive.pdf.zip"; stream := "PK" |})
      [("uploads/a.pdf", "x")]
    = (Ok shown, [("uploads/a.pdf", "x")]) /\
    (shown = None \/ shown = Some "No file part" \/
     shown = Some "No selected file").
Proof.
  apply (upload_file_not_accepted (fun _ => Ok []) (fun _ => Ok [])
           (fun name => name) "uploads" (fun _ _ _ => true)).
  intros file _ Hget. injection Hget as <-. discriminate.
Defined.

(** X7: when the file system has taken the file of an accepted upload and
    the reader raises on its bytes, the handler raises the same exception
    and the saved file stays on the disk. *)
Theorem upload_file_reader_failure
    (PdfReader_pages : string -> result (list (option string)))
    (Document_paragraphs : string -> result (list string))
    (secure_filename : string -> string) (UPLOAD_FOLDER : string)
    (can_write : filesystem -> string -> string -> bool)
    (req : request) (file : FileStorage) (disk : filesystem) (e : exn) :
  method req = POST ->
  Dict.get (files req) "file" = Some file ->
  allowed_file (filename file) = Ok true ->
  can_write disk
    (os_path_join UPLOAD_FOLDER (secure_filename (filename file)))
    (stream file) = true ->
  let name := secure_filename (filename file) in
  let saved := Dict.set disk (os_path_join UPLOAD_FOLDER name) (stream file) in
  (Str.endswith (Str.lower name) ".pdf" = true ->
   PdfReader_pages (stream file) = Raise e ->
   upload_file PdfReader_pages Document_paragraphs secure_filename
     UPLOAD_FOLDER can_write req disk = (Raise e, saved)) /\
  (Str.endswith (Str.lower name) ".pdf" = false ->
   Str.endswith (Str.lower name) ".docx" = true ->
   Document_paragraphs (stream file) = Raise e ->
   upload_file PdfReader_pages Document_paragraphs secure_filename
     UPLOAD_FOLDER can_write req disk = (Raise e, saved)).
Proof.
  intros Hm Hget Hok Hwrite. cbv zeta.
  rewrite (saved_page _ _ _ _ _ req file disk Hm Hget Hok Hwrite). cbv zeta.
  split.
  - intros Hpdf Hraise. rewrite process_pdf by exact Hpdf.
    unfold extract_text_from_pdf. rewrite read_saved. cbn [bind].
    now rewrite Hraise.
  - intros Hpdf Hdocx Hraise. rewrite process_docx by assumption.
    unfold extract_text_from_docx, Document. rewrite More.get_set_same.
    now rewrite Hraise.
Qed.

Lemma upload_file_reader_failure_witness :
  upload_file (fun _ => Raise ReaderError) (fun _ => Ok []) (fun name => name)
    "uploads" (fun _ _ _ => true)
    (post_file {| filename := "broken.PDF"; stream := "not a pdf" |}) []
  = (Raise ReaderError, [("uploads/broken.PDF", "not a pdf")]).
Proof.
  exact (proj1 (upload_file_reader_failure (fun _ => Raise ReaderError)
                  (fun _ => Ok []) (fun name => name) "uploads"
                  (fun _ _ _ => true)
                  (post_file {| filename := "broken.PDF";
                                stream := "not a pdf" |})
                  {| filename := "broken.PDF"; stream := "not a pdf" |} []
                  ReaderError eq_refl eq_refl eq_refl eq_refl)
               eq_refl eq_refl).
Defined.

(** X8: an accepted upload that the file system takes and whose sanitized
    name ends in ".pdf" shows the answer of [categorize_text] for the
    concatenated page texts; when no page has any text it shows no label,
    not even "Unknown". *)
Theorem upload_file_pdf
    (PdfReader_pages : string -> result (list (option string)))
    (Document_paragraphs : string -> result (list string))
    (secure_filename : string -> string) (UPLOAD_FOLDER : string)
    (can_write : filesystem -> string -> string -> bool)
    (req : request) (file : FileStorage) (disk : filesystem)
    (pages : list (option string)) :
  method req = POST ->
  Dict.get (files req) "file" = Some file ->
  allowed_file (filename file) = Ok true ->
  can_write disk
    (os_path_join UPLOAD_FOLDER (secure_filename (filename file)))
    (stream file) = true ->
  Str.endswith (Str.lower (secure_filename (filename file))) ".pdf" = true ->
  PdfReader_pages (stream file) = Ok pages ->
  let shown := fst (upload_file PdfReader_pages Document_paragraphs
                      secure_filename UPLOAD_FOLDER can_write req disk) in
  (pdf_text pages = "" -> shown = Ok None) /\
  (pdf_text pages <> "" ->
   exists label, categorize_text (pdf_text pages) = Ok label /\
                 shown = Ok (Some label)).
Proof.
  intros Hm Hget Hok Hwrite Hpdf Hpages. cbv zeta.
  rewrite (saved_page _ _ _ _ _ req file disk Hm Hget Hok Hwrite). cbv zeta.
  cbn [fst]. rewrite process_pdf by exact Hpdf.
  unfold extract_text_from_pdf. rewrite read_saved. cbn [bind].
  rewrite Hpages. cbn [bind].
  destruct (label_of_text_cases (pdf_text pages))
    as [[Hempty ->] | [Hne [label [Hl ->]]]]; cbn [bind rendered_category].
  - split; [reflexivity | now intros []].
  - split; [intro H; now elim Hne|]. intros _. exists label.
    destruct (More.answer_not_message _ _ Hl) as [Hlabel _].
    apply String.eqb_neq in Hlabel. now rewrite Hlabel.
Qed.

Lemma upload_file_pdf_witness :
  fst (upload_file (fun _ => Ok [None; Some ""; None]) (fun _ => Ok [])
         (fun name => name) "uploads" (fun _ _ _ => true)
         (post_file {| filename := "scan.pdf"; stream := "%PDF" |}) [])
  = Ok None.
Proof.
  exact (proj1 (upload_file_pdf (fun _ => Ok [None; Some ""; None])
                  (fun _ => Ok []) (fun name => name) "uploads"
                  (fun _ _ _ => true)
                  (post_file {| filename := "scan.pdf"; stream := "%PDF" |})
                  {| filename := "scan.pdf"; stream := "%PDF" |} []
                  [None; Some ""; None]
                  eq_refl eq_refl eq_refl eq_refl eq_refl eq_refl)
               eq_refl).
Defined.

Lemma docx_text_two (paragraphs : list string) :
  2 <= List.length paragraphs -> docx_text paragraphs <> "".
Proof.
  destruct paragraphs as [|p [|q rest]]; simpl; try lia. intros _.
  unfold docx_text. cbn [Str.join]. destruct p; discriminate.
Qed.

(** X9: an accepted upload that the file system takes and whose sanitized
    name ends in ".docx" (and not in ".pdf") shows the answer of
    [categorize_text] for the paragraphs joined by newlines; a document of
    two or more paragraphs always gets a label, even when all of them are
    empty, because the joined text holds the newlines. *)
Theorem upload_file_docx
    (PdfReader_pages : string -> result (list (option string)))
    (Document_paragraphs : string -> result (list string))
    (secure_filename : string -> string) (UPLOAD_FOLDER : string)
    (can_write : filesystem -> string -> string -> bool)
    (req : request) (file : FileStorage) (disk : filesystem)
    (paragraphs : list string) :
  method req = POST ->
  Dict.get (files req) "file" = Some file ->
  allowed_file (filename file) = Ok true ->
  can_write disk
    (os_path_join UPLOAD_FOLDER (secure_filename (filename file)))
    (stream file) = true ->
  Str.endswith (Str.lower (secure_filename (filename file))) ".pdf" = false ->
  Str.endswith (Str.lower (secure_filename (filename file))) ".docx" = true ->
  Document_paragraphs (stream file) = Ok paragraphs ->
  let shown := fst (upload_file PdfReader_pages Document_paragraphs
                      secure_filename UPLOAD_FOLDER can_write req disk) in
  (docx_text paragraphs = "" -> shown = Ok None) /\
  (docx_text paragraphs <> "" ->
   exists label, categorize_text (docx_text paragraphs) = Ok label /\
                 shown = Ok (Some label)) /\
  (2 <= List.length paragraphs -> docx_text paragraphs <> "").
Proof.
  intros Hm Hget Hok Hwrite Hpdf Hdocx Hpars. cbv zeta.
  rewrite (saved_page _ _ _ _ _ req file disk Hm Hget Hok Hwrite). cbv zeta.
  cbn [fst]. rewrite process_docx by assumption.
  unfold extract_text_from_docx, Document. rewrite More.get_set_same.
  rewrite Hpars. cbn [bind].
  split; [|split; [|apply docx_text_two]];
    destruct (label_of_text_cases (docx_text paragraphs))
      as [[Hempty ->] | [Hne [label [Hl ->]]]]; cbn [bind rendered_category].
  - reflexivity.
  - intro H. now elim Hne.
  - now intros [].
  - intros _. exists label.
    destruct (More.answer_not_message _ _ Hl) as [Hlabel _].
    apply String.eqb_neq in Hlabel. now rewrite Hlabel.
Qed.

Lemma upload_file_docx_witness :
  fst (upload_file (fun _ => Ok []) (fun _ => Ok [""; ""])
         (fun name => name) "uploads" (fun _ _ _ => true)
         (post_file {| filename := "empty.docx"; stream := "PK" |}) [])
  = Ok (Some "Unknown").
Proof.
  destruct (upload_file_docx (fun _ => Ok []) (fun _ => Ok [""; ""])
              (fun name => name) "uploads" (fun _ _ _ => true)
              (post_file {| filename := "empty.docx"; stream := "PK" |})
              {| filename := "empty.docx"; stream := "PK" |} [] [""; ""]
              eq_refl eq_refl eq_refl eq_refl eq_refl eq_refl eq_refl)
    as [_ [Hlabel Htwo]].
  destruct (Hlabel (Htwo (le_n 2))) as [label [Hl Hshown]].
  rewrite Hshown. vm_compute in Hl. injection Hl as <-. reflexivity.
Defined.

(** X10: whatever the request, a label that the page shows is one of the
    three messages of the handler, "Unknown", or a label of the table. *)
Theorem upload_file_labels
    (PdfReader_pages : string -> result (list (option string)))
    (Document_paragraphs : string -> result (list string))
    (secure_filename : string -> string) (UPLOAD_FOLDER : string)
    (can_write : filesystem -> string -> string -> bool)
    (req : request) (disk : filesystem) (label : string) :
  fst (upload_file PdfReader_pages Document_paragraphs secure_filename
         UPLOAD_FOLDER can_write req disk) = Ok (Some label) ->
  In label ["No file part"; "No selected file"; "Unsupported file type";
            "Unknown"; "Football"; "Cricket"; "Basketball"; "Tennis";
            "Hockey"].
Proof.
  intro Hshown.
  destruct (accepted_or_not req) as [[file [Hm [Hget Hok]]] | Hrej].
  - destruct (accepted_shown _ _ _ _ _ req file disk _ Hm Hget Hok Hshown)
      as [saved Hsaved].
    apply shown_of_saved in Hsaved
      as [H | [[H _] | [text [l [Hl H]]]]]; [discriminate| |].
    + injection H as ->. simpl; tauto.
    + injection H as ->.
      destruct (Answer.range text) as [l' [Hl' Hr]].
      rewrite Hl in Hl'. injection Hl' as <-.
      destruct Hr as [-> | Hr]; simpl in *; tauto.
  - destruct (other_page PdfReader_pages Document_paragraphs secure_filename
                UPLOAD_FOLDER can_write req disk Hrej) as [shown [Hpage Hs]].
    rewrite Hpage in Hshown. cbn [fst] in Hshown. injection Hshown as ->.
    destruct Hs as [H | [H | H]]; [discriminate| |];
      injection H as ->; simpl; tauto.
Qed.

Lemma upload_file_labels_witness :
  In "Tennis"
     ["No file part"; "No selected file"; "Unsupported file type";
      "Unknown"; "Football"; "Cricket"; "Basketball"; "Tennis"; "Hockey"].
Proof.
  exact (upload_file_labels (fun _ => Ok []) (fun _ => Ok ["Nadal at Wimbledon"])
           (fun name => name) "uploads" (fun _ _ _ => true)
           (post_file {| filename := "final.docx"; stream := "PK" |}) []
           "Tennis" eq_refl).
Defined.

(** X11: the page shows "Unsupported file type" only for a name that
    [allowed_file] accepts and that [secure_filename] changes into one
    ending neither in ".pdf" nor in ".docx"; a name that is stored as it
    was uploaded never gets this label. *)
Theorem upload_file_unsupported_label
    (PdfReader_pages : string -> result (list (option string)))
    (Document_paragraphs : string -> result (list string))
    (secure_filename : string -> string) (UPLOAD_FOLDER : string)
    (can_write : filesystem -> string -> string -> bool)
    (req : request) (disk : filesystem) :
  fst (upload_file PdfReader_pages Document_paragraphs secure_filename
         UPLOAD_FOLDER can_write req disk) = Ok (Some "Unsupported file type") ->
  exists file,
    Dict.get (files req) "file" = Some file /\
    allowed_file (filename file) = Ok true /\
    secure_filename (filename file) <> filename file /\
    Str.endswith (Str.lower (secure_filename (filename file))) ".pdf" = false /\
    Str.endswith (Str.lower (secure_filename (filename file))) ".docx" = false.
Proof.
  intro Hshown.
  destruct (accepted_or_not req) as [[file [Hm [Hget Hok]]] | Hrej].
  - exists file. split; [exact Hget|]. split; [exact Hok|].
    destruct (accepted_shown _ _ _ _ _ req file disk _ Hm Hget Hok Hshown)
      as [saved Hsaved].
    apply shown_of_saved in Hsaved
      as [H | [[_ [Hpdf Hdocx]] | [text [l [Hl H]]]]]; [discriminate| |].
    + split; [|now split]. intro Hsame. rewrite Hsame in Hpdf, Hdocx.
      destruct (More.allowed_name_ends _ Hok) as [E | E]; congruence.
    + exfalso. injection H as <-.
      destruct (More.answer_not_message _ _ Hl) as [_ [Hne _]]. now elim Hne.
  - exfalso.
    destruct (other_page PdfReader_pages Document_paragraphs secure_filename
                UPLOAD_FOLDER can_write req disk Hrej) as [shown [Hpage Hs]].
    rewrite Hpage in Hshown. cbn [fst] in Hshown. injection Hshown as ->.
    destruct Hs as [H | [H | H]]; discriminate.
Qed.

Lemma upload_file_unsupported_label_witness :
  exists file,
    Dict.get [("file", {| filename := ".pdf"; stream := "%PDF" |})] "file"
    = Some file /\
    allowed_file (filename file) = Ok true /\
    Str.drop 1 (filename file) <> filename file /\
    Str.endswith (Str.lower (Str.drop 1 (filename file))) ".pdf" = false /\
    Str.endswith (Str.lower (Str.drop 1 (filename file))) ".docx" = false.
Proof.
  exact (upload_file_unsupported_label (fun _ => Ok []) (fun _ => Ok [])
           (Str.drop 1) "uploads" (fun _ _ _ => true)
           (post_file {| filename := ".pdf"; stream := "%PDF" |}) [] eq_refl).
Defined.

(** ** Counting: matches do not overlap *)

Module CountBound.
Import Str.
Local Open Scope nat_scope.

Lemma prefix_length (sub s : string) :
  prefix sub s = true -> String.length sub <= String.length s.
Proof.
  revert sub; induction s as [|c s IH]; intros [|x sub]; simpl;
    try discriminate; try lia.
  destruct (ascii_dec x c); [|discriminate].
  intro H. apply IH in H. lia.
Qed.

Lemma prefix_append_left (sub s b : string) :
  prefix sub s = true -> prefix sub (s ++ b) = true.
Proof.
  revert sub; induction s as [|c s IH]; intros [|x sub]; simpl;
    try discriminate; try reflexivity.
  - now destruct b.
  - destruct (ascii_dec x c); [apply IH | discriminate].
Qed.

Lemma prefix_append_inv (sub s b : string) :
  prefix sub (s ++ b) = true ->
  String.length sub <= String.length s ->
  prefix sub s = true.
Proof.
  revert sub; induction s as [|c s IH]; intros [|x sub].
  - reflexivity.
  - simpl. lia.
  - reflexivity.
  - cbn [append prefix String.length].
    destruct (ascii_dec x c); [|discriminate].
    intros H1 H2. apply IH; [exact H1 | lia].
Qed.

(** The matches counted from a position, laid side by side, fit in what
    is left of the text after the characters still to skip. *)
Lemma count_from_fits (sub : string) (s : string) :
  sub <> "" ->
  forall k, count_from sub k s * String.length sub <= String.length s - k.
Proof.
  intro Hsub. induction s as [|c s IH]; intro k.
  - destruct k; simpl; [|lia]. destruct sub; [now elim Hsub | simpl; lia].
  - destruct k as [|k].
    + cbn [count_from]. destruct (prefix sub (String c s)) eqn:Hp.
      * apply prefix_length in Hp. specialize (IH (pred (String.length sub))).
        cbn [String.length] in *.
        assert (0 < String.length sub) by (destruct sub; [now elim Hsub | simpl; lia]).
        lia.
      * specialize (IH 0). cbn [String.length]. lia.
    + change (count_from sub (S k) (String c s)) with (count_from sub k s).
      specialize (IH k). cbn [String.length]. lia.
Qed.

Lemma count_fits (s sub : string) :
  sub <> "" -> count s sub * String.length sub <= String.length s.
Proof.
  intro Hsub. pose proof (count_from_fits sub s Hsub 0) as H.
  unfold count. lia.
Qed.

(** A text shorter than [sub] holds no occurrence of it. *)
Lemma count_short (s sub : string) :
  String.length s < String.length sub -> count s sub = 0.
Proof.
  intro Hlt. assert (Hsub : sub <> "") by (intros ->; simpl in Hlt; lia).
  pose proof (count_fits s sub Hsub) as H.
  destruct (count s sub); [reflexivity | simpl in H; lia].
Qed.

(** Text added at the end takes no match away. *)
Lemma count_from_append (sub : string) (a b : string) :
  forall k, count_from sub k a <= count_from sub k (a ++ b).
Proof.
  induction a as [|c a IH]; intro k.
  - cbn [append count_from]. destruct k; [|apply Nat.le_0_l].
    destruct sub as [|x sub]; [|apply Nat.le_0_l].
    destruct b; simpl; lia.
  - destruct k as [|k].
    + cbn [append count_from].
      destruct (prefix sub (String c a)) eqn:Hp.
      * change (String c (a ++ b)) with (String c a ++ b).
        rewrite (prefix_append_left _ _ b Hp).
        specialize (IH (pred (String.length sub))). lia.
      * destruct (prefix sub (String c (a ++ b))) eqn:Hq.
        -- assert (Hshort : count_from sub 0 a = 0).
           { destruct sub as [|x sub]; [discriminate Hp|].
             apply (count_short a (String x sub)).
             destruct (le_lt_dec (String.length (String x sub)) (String.length a))
               as [Hle|Hlt]; [|exact Hlt].
             exfalso.
             assert (Hpa : prefix (String x sub) (String c a) = true).
             { apply (prefix_append_inv _ _ b); [exact Hq | simpl in *; lia]. }
             congruence. }
           rewrite Hshort. apply Nat.le_0_l.
        -- apply IH.
    + change (count_from sub (S k) (String c a ++ b))
        with (count_from sub k (a ++ b)).
      change (count_from sub (S k) (String c a)) with (count_from sub k a).
      apply IH.
Qed.

End CountBound.

(** ** Scores and the length of the text *)

Lemma keywords_long (sport : string) (keywords : list string) (keyword : string) :
  In (sport, keywords) SPORT_CATEGORIES ->
  In keyword keywords ->
  3 <= String.length keyword.
Proof.
  intros Hs Hk.
  assert (Hall : forallb (fun e => forallb (fun kw => 3 <=? String.length kw)
                                     (snd e)) SPORT_CATEGORIES = true)
    by (vm_compute; reflexivity).
  rewrite forallb_forall in Hall. specialize (Hall _ Hs). cbn [snd] in Hall.
  rewrite forallb_forall in Hall. specialize (Hall _ Hk).
  now apply Nat.leb_le.
Qed.

(** X12: the occurrences counted for a keyword of the table do not overlap:
    laid side by side they are no longer than the text. *)
Theorem keyword_matches_fit (sport : string) (keywords : list string)
    (keyword text : string) :
  In (sport, keywords) SPORT_CATEGORIES ->
  In keyword keywords ->
  Str.count (Str.lower text) keyword * String.length keyword
  <= String.length text.
Proof.
  intros Hs Hk. destruct (Reference.keywords_ok _ _ _ Hs Hk) as [Hne _].
  rewrite <- (StrFacts.length_lower text).
  now apply CountBound.count_fits.
Qed.

Lemma keyword_matches_fit_witness :
  Str.count (Str.lower "nbanbanb") "nba" * 3 <= 8.
Proof.
  apply (keyword_matches_fit "Basketball"
           ["basketball"; "nba"; "hoop"; "dribble"; "slam dunk"; "lebron";
            "curry"] "nba" "nbanbanb"); simpl; tauto.
Defined.

(** X13: a text of fewer than three characters, the length of the shortest
    keywords, is classified "Unknown". *)
Theorem categorize_text_short (text : string) :
  String.length text < 3 -> categorize_text text = Ok "Unknown".
Proof.
  intro Hlen. apply (Classifier.all_zero _ Reference.labels_distinct);
    [discriminate|].
  intros sport keywords Hs. apply Reference.score_zero. intros keyword Hk.
  apply CountBound.count_short. rewrite StrFacts.length_lower.
  pose proof (keywords_long _ _ _ Hs Hk). lia.
Qed.

Lemma categorize_text_short_witness : categorize_text "NB" = Ok "Unknown".
Proof. apply categorize_text_short. simpl. lia. Defined.

Lemma get_score_table_inv (table : Dict.t (list string)) (text sport : string)
    (n : nat) :
  Dict.get (score_table table text) sport = Some n ->
  exists keywords, In (sport, keywords) table /\ n = category_score keywords text.
Proof.
  induction table as [|[s k] table IH]; simpl; [discriminate|].
  destruct (String.eqb_spec s sport) as [->|_].
  - intro H; injection H as <-. exists k. split; [now left | reflexivity].
  - intro H. destruct (IH H) as [keywords [Hin Hn]].
    exists keywords. split; [now right | exact Hn].
Qed.

(** X14: when the lower-cased text of a document begins with the
    lower-cased text of another (text was added at its end), the loops
    give every category at least the score they give it for the shorter
    one, so if the longer document is "Unknown" the shorter one is too. *)
Theorem scores_grow_with_text (text text' rest : string) :
  Str.lower text' = (Str.lower text ++ rest)%string ->
  (exists scores scores',
     count_keywords SPORT_CATEGORIES (Str.lower text)
       (zero_scores SPORT_CATEGORIES) = Ok scores /\
     count_keywords SPORT_CATEGORIES (Str.lower text')
       (zero_scores SPORT_CATEGORIES) = Ok scores' /\
     (forall sport n, Dict.get scores sport = Some n ->
        exists n', Dict.get scores' sport = Some n' /\ n <= n')) /\
  (categorize_text text' = Ok "Unknown" -> categorize_text text = Ok "Unknown").
Proof.
  intro Hlow.
  assert (Hmono : forall keywords,
            category_score keywords text <= category_score keywords text').
  { intro keywords. unfold category_score. rewrite Hlow.
    induction keywords as [|kw kws IH]; cbn [map list_sum fold_right];
      [apply Nat.le_refl|].
    pose proof (CountBound.count_from_append kw (Str.lower text) rest 0) as H.
    unfold list_sum in IH. unfold Str.count at 1 3. lia. }
  split.
  - exists (score_table SPORT_CATEGORIES text),
           (score_table SPORT_CATEGORIES text').
    split; [apply Scoring.count_keywords_scores, Reference.labels_distinct|].
    split; [apply Scoring.count_keywords_scores, Reference.labels_distinct|].
    intros sport n Hn.
    destruct (get_score_table_inv _ _ _ _ Hn) as [keywords [Hin ->]].
    exists (category_score keywords text'). split; [|apply Hmono].
    apply Scoring.get_score_table; [exact Reference.labels_distinct | exact Hin].
  - intro Hunk. apply Answer.unknown_iff. intros sport keywords Hs.
    pose proof (proj1 (Answer.unknown_iff text') Hunk _ _ Hs) as Hzero.
    specialize (Hmono keywords). lia.
Qed.

Lemma scores_grow_with_text_witness :
  exists scores scores',
    count_keywords SPORT_CATEGORIES (Str.lower "A goal")
      (zero_scores SPORT_CATEGORIES) = Ok scores /\
    count_keywords SPORT_CATEGORIES (Str.lower "A goal, then a KICK")
      (zero_scores SPORT_CATEGORIES) = Ok scores' /\
    (forall sport n, Dict.get scores sport = Some n ->
       exists n', Dict.get scores' sport = Some n' /\ n <= n').
Proof.
  exact (proj1 (scores_grow_with_text "A goal" "A goal, then a KICK"
                  ", then a kick" eq_refl)).
Defined.

(** ** When the extracted text is empty *)

Lemma append_empty (a b : string) : (a ++ b)%string = "" -> a = "" /\ b = "".
Proof. destruct a; simpl; [now split | discriminate]. Qed.

(** X15: the text of a PDF is empty exactly when no page has any text; the
    text of a DOCX is empty exactly when the document has no paragraph or
    one empty paragraph. *)
Theorem extracted_text_empty_iff :
  (forall pages : list (option string),
     pdf_text pages = "" <-> Forall (fun page => or_empty page = "") pages) /\
  (forall paragraphs : list string,
     docx_text paragraphs = "" <-> paragraphs = [] \/ paragraphs = [""]).
Proof.
  split.
  - induction pages as [|p pages IH].
    + split; [constructor | reflexivity].
    + rewrite Extraction.pdf_text_cons. split.
      * intro H. apply append_empty in H as [Hp Hrest].
        constructor; [exact Hp | now apply IH].
      * intro H. inversion H as [|? ? Hp Hrest]; subst.
        rewrite Hp. now apply IH.
  - intros [|p [|q rest]].
    + split; [now left | reflexivity].
    + unfold docx_text. cbn [Str.join]. split.
      * intros ->. now right.
      * intros [H | H]; [discriminate | now injection H].
    + split.
      * intro H. exfalso. revert H. apply docx_text_two. simpl. lia.
      * intros [H | H]; discriminate.
Qed.
